(** * Event Listing via RSS

    A shallow embedding of [_resources20/js/modules/EventListingViaRss.ts]
    (with the error sink of [ErrorReporting.ts]) and the properties of its
    selection and formatting pipeline.

    Conventions of the embedding.
    - A JavaScript string is a [string]; an [ascii] stands for one UTF-16
      code unit below 256, which covers every character the module inspects.
    - A JavaScript number that holds a time value or a count is a [number]:
      [NaN] or an exact integer.  Time values are integers of magnitude at
      most 8.64e15 and the two safe-integer constants are integers, so every
      comparison the module performs is exact on this representation.
    - [string | null] is [option string]; [string | null | undefined] is
      [nullable].
    - Console output, notifications of the error sink, assignments to
      [innerHTML] and [throw] are the effects of the monad [M]: a trace of
      [effect]s and a [completion].  A thrown value or the reason of a
      rejection is its string form, [String(reason)]: what [console.error]
      shows of it and what [new Error(reason)] takes as its message.
    - [Date.parse], [toLocaleString] and the global [Bugsnag], which is
      there only when the script of [ErrorReporting.ts] has loaded, belong
      to the host and are the methods of the class [DateHost]; the network
      is a parameter of [main].
    - The text content of an element is never null in a document, so an
      item of the feed holds the texts of its elements; [textContent] gives
      them the type the module reads them at, [string | null]. *)

From Stdlib Require Import ZArith List Bool Ascii String Lia.
From Stdlib Require Import Permutation Sorted DecimalString.
Import ListNotations.

Local Open Scope list_scope.
Local Open Scope string_scope.
Local Open Scope Z_scope.

(* ================================================================== *)
(** * JavaScript primitives used by the module *)
(* ================================================================== *)

Module JS.

(** ** Numbers *)

Inductive number : Type :=
| NaN
| Num (z : Z).

(** [a <= b] on numbers: every comparison with [NaN] is false. *)
Definition le (a b : number) : bool :=
  match a, b with
  | Num x, Num y => x <=? y
  | _, _ => false
  end.

Definition MAX_SAFE_INTEGER : Z := 2 ^ 53 - 1.
Definition MIN_SAFE_INTEGER : Z := - (2 ^ 53 - 1).

(** The largest magnitude of a time value (ECMA-262, TimeClip). *)
Definition MAX_TIME : Z := 8640000000000000.

Definition TimeClip (t : Z) : number :=
  if (- MAX_TIME <=? t) && (t <=? MAX_TIME) then Num t else NaN.

(** ** [string | null | undefined] *)

Inductive nullable : Type :=
| undefined
| null
| str (s : string).

(** A value interpolated in a template literal. *)
Definition interpolate (v : nullable) : string :=
  match v with
  | undefined => "undefined"
  | null => "null"
  | str s => s
  end.

(** ** Strings *)

Definition code (c : ascii) : Z := Z.of_N (N_of_ascii c).

(** [s.indexOf(c)] for a one-character needle: [-1] when absent. *)
Fixpoint indexOf (c : ascii) (s : string) : Z :=
  match s with
  | EmptyString => -1
  | String a s' =>
      if Ascii.eqb a c then 0
      else let i := indexOf c s' in
           if i =? -1 then -1 else i + 1
  end.

(** White space and line terminators among the code units below 256:
    TAB, LF, VT, FF, CR, SP and NBSP. *)
Definition isWhiteSpace (c : ascii) : bool :=
  let n := code c in
  ((9 <=? n) && (n <=? 13)) || (n =? 32) || (n =? 160).

Fixpoint trimStart (s : string) : string :=
  match s with
  | EmptyString => EmptyString
  | String c s' => if isWhiteSpace c then trimStart s' else s
  end.

Fixpoint trimEnd (s : string) : string :=
  match s with
  | EmptyString => EmptyString
  | String c s' =>
      match trimEnd s' with
      | EmptyString => if isWhiteSpace c then EmptyString else String c EmptyString
      | r => String c r
      end
  end.

Definition trim (s : string) : string := trimEnd (trimStart s).

(** [s.replaceAll(a, b)] for one-character [a] and [b]. *)
Fixpoint replaceAll (a b : ascii) (s : string) : string :=
  match s with
  | EmptyString => EmptyString
  | String c s' => String (if Ascii.eqb c a then b else c) (replaceAll a b s')
  end.

(** [s.split(sep)] for a one-character separator; never the empty list. *)
Fixpoint split (sep : ascii) (s : string) : list string :=
  match s with
  | EmptyString => [EmptyString]
  | String c s' =>
      if Ascii.eqb c sep then EmptyString :: split sep s'
      else match split sep s' with
           | [] => [String c EmptyString]
           | t :: ts => String c t :: ts
           end
  end.

(** ** Global replacement by a regular expression

    A [matcher] gives, for the text at the current position, the length of
    the match that starts there, if there is one.  [replace_g] scans from the
    left as [String.prototype.replace] does with a [/g] pattern: a match is
    replaced and the scan resumes after it; without a match one character is
    copied.  [skip] counts the characters of the current match still to be
    dropped.  Every pattern of the module matches at least one character. *)

Definition matcher : Type := string -> option nat.

Fixpoint replace_from (m : matcher) (by_ : string) (skip : nat) (s : string)
  : string :=
  match s with
  | EmptyString => EmptyString
  | String c s' =>
      match skip with
      | S k => replace_from m by_ k s'
      | O =>
          match m s with
          | Some (S k) => by_ ++ replace_from m by_ k s'
          | _ => String c (replace_from m by_ O s')
          end
      end
  end.

Definition replace_g (m : matcher) (by_ : string) (s : string) : string :=
  replace_from m by_ O s.

(** Length of the longest prefix of [s] made of the character [c]. *)
Fixpoint run_length (c : ascii) (s : string) : nat :=
  match s with
  | String a s' => if Ascii.eqb a c then S (run_length c s') else O
  | EmptyString => O
  end.

Fixpoint drop (n : nat) (s : string) : string :=
  match n, s with
  | S k, String _ s' => drop k s'
  | _, _ => s
  end.

(** Position of the first [c] in [s], as a count of characters before it. *)
Fixpoint find (c : ascii) (s : string) : option nat :=
  match s with
  | EmptyString => None
  | String a s' =>
      if Ascii.eqb a c then Some O
      else match find c s' with Some n => Some (S n) | None => None end
  end.

(** [/<[\s\S]+?>/]: a ["<"], then as few characters as possible but at
    least one, then a [">"]: the match ends at the first [">"] that is not
    directly after the ["<"]. *)
Definition re_tag : matcher := fun s =>
  match s with
  | String "<" (String _ rest) =>
      match find ">" rest with
      | Some n => Some (n + 3)%nat
      | None => None
      end
  | _ => None
  end.

(** [/  +/]: two or more spaces, as many as there are. *)
Definition re_spaces : matcher := fun s =>
  let n := run_length " " s in
  if (2 <=? n)%nat then Some n else None.

(** [/ *, */]: a comma with the spaces around it, as many as there are. *)
Definition re_comma : matcher := fun s =>
  let n := run_length " " s in
  match drop n s with
  | String "," rest => Some (n + 1 + run_length " " rest)%nat
  | _ => None
  end.

(** ** [parseInt(s)] without a radix argument *)

Definition digit_value (c : ascii) : option Z :=
  let n := code c in
  if (48 <=? n) && (n <=? 57) then Some (n - 48)
  else if (97 <=? n) && (n <=? 122) then Some (n - 87)
  else if (65 <=? n) && (n <=? 90) then Some (n - 55)
  else None.

(** The value of the longest prefix of digits of the radix, with the number
    of digits read. *)
Fixpoint read_digits (radix : Z) (acc : Z) (count : nat) (s : string)
  : Z * nat :=
  match s with
  | EmptyString => (acc, count)
  | String c s' =>
      match digit_value c with
      | Some d =>
          if d <? radix then read_digits radix (acc * radix + d) (S count) s'
          else (acc, count)
      | None => (acc, count)
      end
  end.

Definition parseInt (input : string) : number :=
  let s := trimStart input in
  let '(sign, s) :=
    match s with
    | String "-" s' => (-1, s')
    | String "+" s' => (1, s')
    | _ => (1, s)
    end in
  let '(radix, s) :=
    match s with
    | String "0" (String "x" s') => (16, s')
    | String "0" (String "X" s') => (16, s')
    | _ => (10, s)
    end in
  match read_digits radix 0 O s with
  | (_, O) => NaN
  | (v, _) => Num (sign * v)
  end.

(** ** Arrays *)

(** [a.slice(0, end)] for an integer [end]: a negative [end] counts from the
    end of the array. *)
Definition slice0 {A : Type} (a : list A) (end_ : Z) : list A :=
  let len := Z.of_nat (List.length a) in
  let final := if end_ <? 0 then Z.max (len + end_) 0 else Z.min end_ len in
  firstn (Z.to_nat final) a.

(** [a.sort(compare)]: the sort is stable, and [x] precedes [y] unless
    [compare x y] is positive. *)
Fixpoint insert {A : Type} (compare : A -> A -> Z) (x : A) (l : list A)
  : list A :=
  match l with
  | [] => [x]
  | y :: l' => if compare x y <=? 0 then x :: l else y :: insert compare x l'
  end.

Fixpoint sort {A : Type} (compare : A -> A -> Z) (l : list A) : list A :=
  match l with
  | [] => []
  | x :: l' => insert compare x (sort compare l')
  end.

(** [x] may stand before [y] in an array sorted with [compare]. *)
Definition precedes {A : Type} (compare : A -> A -> Z) (x y : A) : Prop :=
  (compare x y <=? 0) = true.

End JS.

Import JS.

(* ================================================================== *)
(** * Effects *)
(* ================================================================== *)

(** [innerHTML_set i html] is the assignment [element.innerHTML = html] on
    the [i]-th element of the page. *)
Inductive effect : Type :=
| console_error (message : string)
| console_trace
| Bugsnag_notify (message : string)
| innerHTML_set (target : nat) (html : string).

Inductive completion (A : Type) : Type :=
| Normal (a : A)
| Throw (reason : string).

Arguments Normal {A} a.
Arguments Throw {A} reason.

(** A computation: what it wrote, in order, and how it completed. *)
Definition M (A : Type) : Type := list effect * completion A.

Definition ret {A : Type} (a : A) : M A := ([], Normal a).

Definition bind {A B : Type} (m : M A) (k : A -> M B) : M B :=
  match m with
  | (w, Normal a) => let '(w', r) := k a in (w ++ w', r)%list
  | (w, Throw reason) => (w, Throw reason)
  end.

Definition emit (e : effect) : M unit := ([e], Normal tt).

Definition throw {A : Type} (reason : string) : M A := ([], Throw reason).

Notation "x <- m ;; k" := (bind m (fun x => k))
  (at level 61, m at next level, right associativity).
Notation "m ;; k" := (bind m (fun _ => k))
  (at level 61, right associativity).

Definition effects {A : Type} (m : M A) : list effect := fst m.
Definition result {A : Type} (m : M A) : completion A := snd m.

(** [promise.catch(handler)] *)
Definition catch {A : Type} (m : M A) (handler : string -> M A) : M A :=
  match m with
  | (w, Throw reason) => let '(w', r) := handler reason in ((w ++ w')%list, r)
  | _ => m
  end.


(* ================================================================== *)
(** * The host: dates and the error sink *)
(* ================================================================== *)

(** What the module asks of the host: of its [Date], [Date.parse] and
    [toLocaleString("en-US", ...)] of a valid date with each of the four
    option sets the module uses; and the global [Bugsnag], which is
    declared when the script that [ErrorReporting.ts] appends has loaded
    and is not when loading it failed, a failure that module catches and
    survives. *)
Class DateHost : Type := {
  Date_parse : string -> number;
  month_short : Z -> string;
  day_numeric : Z -> string;
  year_numeric : Z -> string;
  time_short : Z -> string;
  Bugsnag_declared : bool
}.

(** The string form of the error a reference to the undeclared [Bugsnag]
    throws. *)
Definition Bugsnag_is_not_defined : string :=
  "ReferenceError: Bugsnag is not defined".

(** [ErrorReporting.ts], [LogError]: [Bugsnag?.notify(new Error(message))].
    With the global declared the sink is notified of the message; without
    it the reference to [Bugsnag] throws. *)
Definition LogError {host : DateHost} (message : string) : M unit :=
  if Bugsnag_declared then emit (Bugsnag_notify message)
  else throw Bugsnag_is_not_defined.

(** ECMA-262: [Date.parse] yields [NaN] or a time value. *)
Class DateHostLaws (host : DateHost) : Prop := {
  Date_parse_range :
    forall s t, Date_parse s = Num t -> - MAX_TIME <= t <= MAX_TIME
}.

(** A date object is its time value, [NaN] for an invalid date, which
    every [toLocaleString] renders as ["Invalid Date"]. *)
Definition toLocaleString (format : Z -> string) (date : number) : string :=
  match date with
  | NaN => "Invalid Date"
  | Num t => format t
  end.

(* ================================================================== *)
(** * The data model *)
(* ================================================================== *)

Module CalendarEvent.
Record t : Type := make {
  start : option string;
  end_ : option string;
  title : nullable;
  description : nullable;
  link : nullable
}.
End CalendarEvent.
Definition CalendarEvent : Type := CalendarEvent.t.

Module DataAttr.
Record t : Type := make {
  begin : option string;
  end_ : option string;
  count : option string;
  tags : option string;
  categories : option string;
  showYear : option string
}.
End DataAttr.
Definition DataAttr : Type := DataAttr.t.

(** An element of the feed is its text, and [element.textContent], of type
    [string | null], is never null for an element. *)
Definition Element : Type := string.

Definition textContent (element : Element) : option string := Some element.

(** An [<item>] of the feed, as far as the module looks at it: its [start]
    and [end] elements in the namespace [CALENDAR_NS], in document order,
    and the text content of its first [title], [description] and [link]
    elements ([undefined] without one). *)
Module Item.
Record t : Type := make {
  startElements : list Element;
  endElements : list Element;
  title : nullable;
  description : nullable;
  link : nullable
}.
End Item.
Definition Item : Type := Item.t.

(** A document is the sequence [doc.querySelectorAll("item")]. *)
Definition XMLDocument : Type := list Item.

(** An element of the page: what [getAttribute] answers for each attribute
    the module reads. *)
Module HTMLElement.
Record t : Type := make {
  data_begin : option string;
  data_end : option string;
  data_count : option string;
  data_tags : option string;
  data_categories : option string;
  data_show_year : option string
}.
End HTMLElement.
Definition HTMLElement : Type := HTMLElement.t.

(** Characters that a string literal cannot hold directly. *)
Definition dq : string := String "034" EmptyString.
Definition nl : string := String "010" EmptyString.
Definition tab : string := String "009" EmptyString.
(** The much-greater-than sign of the link to read more, U+226B, written
    as its three UTF-8 bytes. *)
Definition much_greater : string :=
  String "226" (String "137" (String "171" EmptyString)).

Fixpoint spaces (n : nat) : string :=
  match n with
  | O => EmptyString
  | S k => String " " (spaces k)
  end.

Definition CALENDAR_NS : string := "https://moderncampus.com/Data/cal/".

Definition CALENDAR_RSS_URL : string :=
  "https://api.calendar.moderncampus.net/pubcalendar/" ++
  "6c766263-8719-4764-a0df-af488b8d5bbe/rss" ++
  "?url=https%3A%2F%2Fwww.ferris.edu%2Fcalendar%2Fhomepage.htm&hash=true&end=2099-12-31".

(* ================================================================== *)
(** * The module *)
(* ================================================================== *)

(** ** [isNullOrEmpty], [getDataAttr] *)

Definition isNullOrEmpty (value : option string) : bool :=
  match value with
  | None => true
  | Some v => String.eqb (trim v) ""
  end.

Definition getDataAttr (element : HTMLElement) : DataAttr :=
  let rawData :=
    DataAttr.make
      (HTMLElement.data_begin element)
      (HTMLElement.data_end element)
      (HTMLElement.data_count element)
      (HTMLElement.data_tags element)
      (HTMLElement.data_categories element)
      (HTMLElement.data_show_year element) in
  let keep (v : option string) := if isNullOrEmpty v then None else v in
  DataAttr.make
    (keep (DataAttr.begin rawData))
    (keep (DataAttr.end_ rawData))
    (keep (DataAttr.count rawData))
    (keep (DataAttr.tags rawData))
    (keep (DataAttr.categories rawData))
    (keep (DataAttr.showYear rawData)).

(** ** [appendToUrl] *)

(** The loop [for (const term of terms) newUrl += "&tag=" + term]. *)
Fixpoint append_terms (newUrl : string) (terms : list string) : string :=
  match terms with
  | [] => newUrl
  | term :: rest => append_terms (newUrl ++ "&tag=" ++ term) rest
  end.

Definition appendToUrl (url : string) (tags categories : option string)
  : string :=
  let newUrl := url in
  let newUrl :=
    match tags with
    | Some tags =>
        let tagArray := split "," (replaceAll " " "+" tags) in
        append_terms newUrl tagArray
    | None => newUrl
    end in
  let newUrl :=
    match categories with
    | Some categories =>
        let categoryArray :=
          split "," (replaceAll " " "+"
                       (replace_g re_comma "," (trim categories))) in
        append_terms newUrl categoryArray
    | None => newUrl
    end in
  newUrl.

(** ** [removeTags] *)

Definition removeTags (html : nullable) : string :=
  match html with
  | str html =>
      let retHtml := replace_g re_tag " " html in
      let retHtml := replace_g re_spaces " " retHtml in
      let retHtml := trim retHtml in
      retHtml
  | _ => ""
  end.

Section EventListingViaRss.

Context {host : DateHost}.

(** ** [eventWithinDateRange] *)

Definition eventWithinDateRange (eventStart eventEnd : option string)
    (beginDateRange endDateRange : option string) : M bool :=
  match eventStart, eventEnd with
  | Some eventStart, Some eventEnd =>
      let eventStartStr :=
        if indexOf "T" eventStart =? -1 then eventStart ++ "T00:00"
        else eventStart in
      let eventStartNum := Date_parse eventStartStr in
      let eventEndStr :=
        if indexOf "T" eventEnd =? -1 then eventEnd ++ "T23:59"
        else eventEnd in
      let eventEndNum := Date_parse eventEndStr in
      let beginDateRangeNum :=
        match beginDateRange with
        | Some b => Date_parse b
        | None => Num MIN_SAFE_INTEGER
        end in
      let endDateRangeNum :=
        match endDateRange with
        | Some e => Date_parse e
        | None => Num MAX_SAFE_INTEGER
        end in
      ret (JS.le eventStartNum endDateRangeNum
           && JS.le beginDateRangeNum eventEndNum)
  | _, _ =>
      let errorMsg := "Event start or end is null" in
      emit (console_error errorMsg) ;;
      emit console_trace ;;
      LogError errorMsg ;;
      ret false
  end.

(** ** [getEvents] *)

(** The comparison function given to [events.sort]; [<] and [>] on strings
    compare code units. *)
Definition compareEvents (a b : CalendarEvent) : Z :=
  match CalendarEvent.start a, CalendarEvent.start b with
  | None, None => 0
  | None, _ => -1
  | _, None => 1
  | Some a_start, Some b_start =>
      if (a_start <? b_start)%string then -1
      else if (b_start <? a_start)%string then 1
      else 0
  end.

(** The loop over the items: [events] is the array built so far. *)
Fixpoint for_items (items : list Item) (dataBegin dataEnd : option string)
    (events : list CalendarEvent) : M (list CalendarEvent) :=
  match items with
  | [] => ret events
  | item :: rest =>
      match Item.startElements item with
      | [] => for_items rest dataBegin dataEnd events
      | start0 :: _ =>
          match Item.endElements item with
          | [] => for_items rest dataBegin dataEnd events
          | end0 :: _ =>
              isWithinDateRange <-
                eventWithinDateRange (textContent start0) (textContent end0)
                  dataBegin dataEnd ;;
              if negb isWithinDateRange
              then for_items rest dataBegin dataEnd events
              else
                for_items rest dataBegin dataEnd
                  (events ++ [CalendarEvent.make (textContent start0)
                                (textContent end0)
                                (Item.title item)
                                (Item.description item)
                                (Item.link item)])%list
          end
      end
  end.

Definition getEvents (doc : XMLDocument) (dataBegin dataEnd : option string)
    (dataCount : option string) : M (list CalendarEvent) :=
  let items := doc in
  events <- for_items items dataBegin dataEnd [] ;;
  let numEventsToDisplay := 2 in
  let numEventsToDisplay :=
    match dataCount with
    | Some dataCount =>
        match parseInt dataCount with
        | Num parsedCount => parsedCount
        | NaN => numEventsToDisplay
        end
    | None => numEventsToDisplay
    end in
  let length := Z.of_nat (List.length events) in
  let numEventsToDisplay :=
    if length <? numEventsToDisplay then length else numEventsToDisplay in
  if length =? 0 then ret []
  else
    let events :=
      if 1 <? length then sort compareEvents events else events in
    ret (slice0 events numEventsToDisplay).

(** ** [getHtml] *)

(** The compaction of a pair of labels: [out = start], and
    [out += "-" + end] when they differ. *)
Definition compact (startStr endStr : string) : string :=
  if negb (String.eqb startStr endStr) then startStr ++ "-" ++ endStr
  else startStr.

(** The loop over the events: [htmlResult] is the text built so far. *)
Fixpoint for_events (events : list CalendarEvent) (dataShowYear : option string)
    (htmlResult : string) : M string :=
  match events with
  | [] => ret htmlResult
  | event :: rest =>
      match CalendarEvent.start event, CalendarEvent.end_ event with
      | Some event_start, Some event_end =>
          let hasTime :=
            negb (indexOf "T" event_start =? -1)
            && negb (indexOf "T" event_end =? -1) in
          let startDateStr :=
            if indexOf "T" event_start =? -1 then event_start ++ "T00:00"
            else event_start in
          let startDate := Date_parse startDateStr in
          let endDateStr :=
            if indexOf "T" event_end =? -1 then event_end ++ "T23:59"
            else event_end in
          let endDate := Date_parse endDateStr in
          let startMonthStr := toLocaleString month_short startDate in
          let startDayStr := toLocaleString day_numeric startDate in
          let startYearStr := toLocaleString year_numeric startDate in
          let endMonthStr := toLocaleString month_short endDate in
          let endDayStr := toLocaleString day_numeric endDate in
          let endYearStr := toLocaleString year_numeric endDate in
          let outTimeStr :=
            toLocaleString time_short startDate ++ " - " ++
            toLocaleString time_short endDate in
          let outMonthStr := compact startMonthStr endMonthStr in
          let outDayStr := compact startDayStr endDayStr in
          let outYearStr := compact startYearStr endYearStr in
          let showYear :=
            match dataShowYear with
            | Some v => String.eqb v "true"
            | None => false
            end in
          let htmlResult := htmlResult ++
            nl ++ spaces 16 ++
            "<div class=" ++ dq ++ "eventWrap columns col2" ++ dq ++ ">" ++
            nl ++ spaces 20 ++
            "<div class=" ++ dq ++ "date" ++ dq ++ ">" ++
            nl ++ spaces 24 ++
            "<div class=" ++ dq ++ "dateWrap" ++ dq ++ ">" ++
            "<span class=" ++ dq ++ "month" ++ dq ++ ">" ++ outMonthStr ++
            "</span><span class=" ++ dq ++ "day" ++ dq ++ ">" ++ outDayStr ++
            "</span>" ++
            nl ++ spaces 12 in
          let htmlResult :=
            if showYear then
              htmlResult ++
              nl ++ spaces 28 ++
              "<span class=" ++ dq ++ "year" ++ dq ++ ">" ++ outYearStr ++
              "</span>" ++
              nl ++ spaces 16
            else htmlResult in
          let htmlResult := htmlResult ++
            nl ++ spaces 24 ++ "</div>" ++
            nl ++ spaces 20 ++ "</div>" ++
            nl ++ spaces 20 ++
            "<div class=" ++ dq ++ "eventDescription" ++ dq ++ ">" ++
            nl ++ spaces 24 ++
            "<div class=" ++ dq ++ "title" ++ dq ++ "><a href=" ++ dq ++
            interpolate (CalendarEvent.link event) ++ dq ++ ">" ++
            interpolate (CalendarEvent.title event) ++ "</a></div>" ++
            nl ++ spaces 12 in
          let htmlResult :=
            if hasTime then
              htmlResult ++
              nl ++ spaces 24 ++
              "<div class=" ++ dq ++ "time" ++ dq ++ ">" ++ outTimeStr ++
              "</div>" ++
              nl ++ spaces 16
            else htmlResult in
          let htmlResult := htmlResult ++
            nl ++ spaces 24 ++
            "<div class=" ++ dq ++ "description" ++ dq ++ "><span>" ++
            removeTags (CalendarEvent.description event) ++ "</span></div>" ++
            nl ++ spaces 24 ++
            "<div class=" ++ dq ++ "read-more" ++ dq ++ "><a href=" ++ dq ++
            interpolate (CalendarEvent.link event) ++ dq ++ ">Read more " ++
            much_greater ++ "</a></div>" ++
            nl ++ spaces 20 ++ "</div>" ++
            nl ++ spaces 16 ++ "</div>" ++
            nl ++ spaces 12 in
          for_events rest dataShowYear htmlResult
      | _, _ =>
          emit console_trace ;;
          let errorMsg := "Event date is invalid" in
          LogError errorMsg ;;
          throw ("Error: " ++ errorMsg)
      end
  end.

Definition getHtml (events : list CalendarEvent) (dataShowYear : option string)
  : M string :=
  if Z.of_nat (List.length events) =? 0
  then ret "There are no events to display."
  else
    let htmlResult :=
      "<div class=" ++ dq ++ "homeEvents row hasBackground" ++ dq ++
      "><div class=" ++ dq ++ "wrapper" ++ dq ++ ">" in
    htmlResult <- for_events events dataShowYear htmlResult ;;
    let htmlResult := htmlResult ++ "</div></div>" in
    ret htmlResult.

(** ** [main] *)

(** [fetchXmlDoc] awaits the network and the XML parser, which are the
    host's: [fetchXmlDoc n url] is how the [n]-th request of the page load
    settles, with the parsed document or with the reason of the rejection. *)
Variable fetchXmlDoc : nat -> string -> completion XMLDocument.

(** The loop over the elements; [index] is the position of the current
    element in [eventListingElements].  One request is made per element
    reached, so [index] also numbers the requests. *)
Fixpoint for_elements (index : nat) (elements : list HTMLElement) : M unit :=
  match elements with
  | [] => ret tt
  | element :: rest =>
      let data := getDataAttr element in
      let fullUrl :=
        appendToUrl CALENDAR_RSS_URL (DataAttr.tags data)
          (DataAttr.categories data) in
      doc <- ([], fetchXmlDoc index fullUrl) ;;
      events <- getEvents doc (DataAttr.begin data) (DataAttr.end_ data)
                  (DataAttr.count data) ;;
      html <- getHtml events (DataAttr.showYear data) ;;
      emit (innerHTML_set index html) ;;
      for_elements (S index) rest
  end.

Definition main (eventListingElements : list HTMLElement) : M unit :=
  for_elements O eventListingElements.

(** The module's top level: [main().catch(reason => ...)]. *)
Definition start_module (eventListingElements : list HTMLElement) : M unit :=
  catch (main eventListingElements)
    (fun reason =>
       emit (console_error reason) ;;
       LogError reason ;;
       throw reason).

End EventListingViaRss.

(* ================================================================== *)
(** * A reference host *)
(* ================================================================== *)

(** A host to run the module on, on a page where the script of the error
    sink has loaded.  It reads the two timestamp forms the
    module documents, [YYYY-MM-DD] (as UTC, which ECMA-262 prescribes for a
    date without time) and [YYYY-MM-DDTHH:mm] (as local time), the latter
    also with a zone, ["Z"] or a signed [HH:mm]; local time is a zone at a
    fixed offset of [tz] minutes from UTC.  Any other text parses to [NaN].
    It renders a time value in [en-US] in that zone. *)
Module ReferenceHost.

Definition decimal (c : ascii) : option Z :=
  let n := code c in
  if (48 <=? n) && (n <=? 57) then Some (n - 48) else None.

(** Exactly [k] decimal digits at the head of [s]. *)
Fixpoint digits (k : nat) (acc : Z) (s : string) : option (Z * string) :=
  match k with
  | O => Some (acc, s)
  | S k' =>
      match s with
      | String c s' =>
          match decimal c with
          | Some d => digits k' (acc * 10 + d) s'
          | None => None
          end
      | EmptyString => None
      end
  end.

Definition expect (c : ascii) (s : string) : option string :=
  match s with
  | String a s' => if Ascii.eqb a c then Some s' else None
  | EmptyString => None
  end.

(** Days from 1970-01-01 to the given day of the proleptic Gregorian
    calendar. *)
Definition days_from_civil (y m d : Z) : Z :=
  let y := if m <=? 2 then y - 1 else y in
  let era := y / 400 in
  let yoe := y - era * 400 in
  let doy := (153 * (if 2 <? m then m - 3 else m + 9) + 2) / 5 + d - 1 in
  let doe := yoe * 365 + yoe / 4 - yoe / 100 + doy in
  era * 146097 + doe - 719468.

(** The inverse: year, month and day of a day number. *)
Definition civil_from_days (z : Z) : Z * Z * Z :=
  let z := z + 719468 in
  let era := z / 146097 in
  let doe := z - era * 146097 in
  let yoe := (doe - doe / 1460 + doe / 36524 - doe / 146096) / 365 in
  let doy := doe - (365 * yoe + yoe / 4 - yoe / 100) in
  let mp := (5 * doy + 2) / 153 in
  let d := doy - (153 * mp + 2) / 5 + 1 in
  let m := if mp <? 10 then mp + 3 else mp - 9 in
  let y := yoe + era * 400 in
  (if m <=? 2 then y + 1 else y, m, d).

Definition msPerMinute : Z := 60000.
Definition msPerDay : Z := 86400000.

Definition date_fields (s : string) : option (Z * string) :=
  match digits 4 0 s with
  | Some (y, s) =>
      match expect "-" s with
      | Some s =>
          match digits 2 0 s with
          | Some (m, s) =>
              match expect "-" s with
              | Some s =>
                  match digits 2 0 s with
                  | Some (d, s) =>
                      if (1 <=? m) && (m <=? 12) && (1 <=? d) && (d <=? 31)
                      then Some (days_from_civil y m d, s)
                      else None
                  | None => None
                  end
              | None => None
              end
          | None => None
          end
      | None => None
      end
  | None => None
  end.

Definition time_fields (s : string) : option (Z * string) :=
  match digits 2 0 s with
  | Some (h, s) =>
      match expect ":" s with
      | Some s =>
          match digits 2 0 s with
          | Some (mi, s) =>
              if (h <=? 23) && (mi <=? 59) then Some (h * 60 + mi, s)
              else None
          | None => None
          end
      | None => None
      end
  | None => None
  end.

(** The zone after the time, as minutes east of UTC: none for local time,
    ["Z"], or a sign with hours and minutes. *)
Definition zone_fields (tz : Z) (s : string) : option Z :=
  match s with
  | EmptyString => Some tz
  | String "Z" EmptyString => Some 0
  | String sign s' =>
      match time_fields s' with
      | Some (minutes, EmptyString) =>
          if Ascii.eqb sign "+" then Some minutes
          else if Ascii.eqb sign "-" then Some (- minutes)
          else None
      | _ => None
      end
  end.

Definition parse (tz : Z) (s : string) : number :=
  match date_fields s with
  | Some (day, EmptyString) => TimeClip (day * msPerDay)
  | Some (day, String "T" s) =>
      match time_fields s with
      | Some (minutes, rest) =>
          match zone_fields tz rest with
          | Some offset =>
              TimeClip (day * msPerDay + (minutes - offset) * msPerMinute)
          | None => NaN
          end
      | None => NaN
      end
  | _ => NaN
  end.

Definition decimal_string (n : Z) : string :=
  DecimalString.NilZero.string_of_int (Z.to_int n).

Definition two_digits (n : Z) : string :=
  if n <? 10 then "0" ++ decimal_string n else decimal_string n.

Definition local_day (tz t : Z) : Z := (t + tz * msPerMinute) / msPerDay.
Definition local_minute (tz t : Z) : Z :=
  ((t + tz * msPerMinute) mod msPerDay) / msPerMinute.

Definition month_name (m : Z) : string :=
  nth (Z.to_nat (m - 1))
    ["Jan"; "Feb"; "Mar"; "Apr"; "May"; "Jun";
     "Jul"; "Aug"; "Sep"; "Oct"; "Nov"; "Dec"] "".

Definition en_US_month_short (tz t : Z) : string :=
  let '(_, m, _) := civil_from_days (local_day tz t) in month_name m.

Definition en_US_day_numeric (tz t : Z) : string :=
  let '(_, _, d) := civil_from_days (local_day tz t) in decimal_string d.

Definition en_US_year_numeric (tz t : Z) : string :=
  let '(y, _, _) := civil_from_days (local_day tz t) in decimal_string y.

Definition en_US_time_short (tz t : Z) : string :=
  let minute := local_minute tz t in
  let h := minute / 60 in
  let h12 := if h mod 12 =? 0 then 12 else h mod 12 in
  decimal_string h12 ++ ":" ++ two_digits (minute mod 60) ++
  (if h <? 12 then " AM" else " PM").

Definition host (tz : Z) : DateHost := {|
  Date_parse := parse tz;
  month_short := en_US_month_short tz;
  day_numeric := en_US_day_numeric tz;
  year_numeric := en_US_year_numeric tz;
  time_short := en_US_time_short tz;
  Bugsnag_declared := true
|}.


End ReferenceHost.

(** The reference host five hours west of Greenwich. *)
Definition reference_host : DateHost := ReferenceHost.host (-300).

(** A host on a page where the script of the error sink did not load. *)
Definition without_Bugsnag (h : DateHost) : DateHost := {|
  Date_parse := Date_parse (DateHost := h);
  month_short := month_short (DateHost := h);
  day_numeric := day_numeric (DateHost := h);
  year_numeric := year_numeric (DateHost := h);
  time_short := time_short (DateHost := h);
  Bugsnag_declared := false
|}.

(* ================================================================== *)
(** * The statements of the specification *)
(* ================================================================== *)

(** ** Date ranges *)

(** The text has a time component: it holds a ["T"]. *)
Fixpoint has_time (s : string) : bool :=
  match s with
  | EmptyString => false
  | String c s' => Ascii.eqb c "T" || has_time s'
  end.

Section Instants.

Context {host : DateHost}.

(** The instant of a timestamp used as the start of an event: a bare date
    stands for 00:00 of its day. *)
Definition start_instant (s : string) : number :=
  Date_parse (if has_time s then s else s ++ "T00:00").

(** The instant of a timestamp used as the end of an event: a bare date
    stands for 23:59 of its day. *)
Definition end_instant (s : string) : number :=
  Date_parse (if has_time s then s else s ++ "T23:59").


End Instants.


(** ** Selection *)

(** The event record an item gives when it has both a start and an end
    element. *)
Definition candidate (item : Item) : list CalendarEvent :=
  match Item.startElements item, Item.endElements item with
  | start0 :: _, end0 :: _ =>
      [CalendarEvent.make (textContent start0) (textContent end0)
         (Item.title item) (Item.description item) (Item.link item)]
  | _, _ => []
  end.

Section Survivors.

Context {host : DateHost}.

(** The event passes the overlap test. *)
Definition survives (dataBegin dataEnd : option string) (ev : CalendarEvent)
  : bool :=
  match result (eventWithinDateRange (CalendarEvent.start ev)
                  (CalendarEvent.end_ ev) dataBegin dataEnd) with
  | Normal true => true
  | _ => false
  end.

(** The surviving events of a feed, in feed order. *)
Definition survivors (doc : XMLDocument) (dataBegin dataEnd : option string)
  : list CalendarEvent :=
  filter (survives dataBegin dataEnd) (flat_map candidate doc).

End Survivors.

(** The order of the sort on the start texts: an absent start first, then
    the texts by their code units. *)
Definition text_leb (a b : option string) : bool :=
  match a, b with
  | None, _ => true
  | Some _, None => false
  | Some x, Some y => (x <=? y)%string
  end.

Definition start_le (a b : CalendarEvent) : Prop :=
  text_leb (CalendarEvent.start a) (CalendarEvent.start b) = true.

Definition same_text (a b : option string) : bool :=
  match a, b with
  | None, None => true
  | Some x, Some y => String.eqb x y
  | _, _ => false
  end.

(** The events whose start text is [key], in the order of the list. *)
Definition with_start (key : option string) (l : list CalendarEvent)
  : list CalendarEvent :=
  filter (fun ev => same_text (CalendarEvent.start ev) key) l.

(** The count the [data-count] attribute stands for. *)
Definition count_of (dataCount : option string) : Z :=
  match dataCount with
  | Some text => match parseInt text with Num n => n | NaN => 2 end
  | None => 2
  end.

(** A feed item of one all-day event, and its event record. *)
Definition all_day_item (day name : string) : Item :=
  Item.make [day] [day] (str name) undefined undefined.

Definition all_day_event (day name : string) : CalendarEvent :=
  CalendarEvent.make (Some day) (Some day) (str name) undefined undefined.

(** The feed of the specification's example. *)
Definition january_feed : XMLDocument :=
  [all_day_item "2025-01-10" "a";
   all_day_item "2025-01-05" "b";
   all_day_item "2025-01-20" "c"].

(** The event has a start and an end. *)
Definition dated (ev : CalendarEvent) : Prop :=
  CalendarEvent.start ev <> None /\ CalendarEvent.end_ ev <> None.

(** ** Formatting *)

(** The labels of one event and the texts of its description block. *)
Module FormattedEvent.
Record t : Type := make {
  month : string;
  day : string;
  year : option string;
  time : option string;
  link : string;
  title : string;
  description : string
}.
End FormattedEvent.
Definition FormattedEvent : Type := FormattedEvent.t.

(** The [show-year] attribute asks for the year. *)
Definition show_year (dataShowYear : option string) : bool :=
  match dataShowYear with
  | Some v => String.eqb v "true"
  | None => false
  end.

Section Formatting.

Context {host : DateHost}.

(** A label: the start's value, and ["<start>-<end>"] when the end's
    differs. *)
Definition label (format : Z -> string) (startDate endDate : number)
  : string :=
  let startStr := toLocaleString format startDate in
  let endStr := toLocaleString format endDate in
  if String.eqb startStr endStr then startStr
  else startStr ++ "-" ++ endStr.

Definition format_event (showYear : bool) (ev : CalendarEvent)
    (event_start event_end : string) : FormattedEvent :=
  let startDate := start_instant event_start in
  let endDate := end_instant event_end in
  {| FormattedEvent.month := label month_short startDate endDate;
     FormattedEvent.day := label day_numeric startDate endDate;
     FormattedEvent.year :=
       if showYear then Some (label year_numeric startDate endDate)
       else None;
     FormattedEvent.time :=
       if has_time event_start && has_time event_end
       then Some (toLocaleString time_short startDate ++ " - " ++
                  toLocaleString time_short endDate)
       else None;
     FormattedEvent.link := interpolate (CalendarEvent.link ev);
     FormattedEvent.title := interpolate (CalendarEvent.title ev);
     FormattedEvent.description := removeTags (CalendarEvent.description ev)
  |}.

End Formatting.

(** The date block: month, day and, when there is one, year. *)
Definition date_block (f : FormattedEvent) : string :=
  "<div class=" ++ dq ++ "date" ++ dq ++ ">" ++
  nl ++ spaces 24 ++
  "<div class=" ++ dq ++ "dateWrap" ++ dq ++ ">" ++
  "<span class=" ++ dq ++ "month" ++ dq ++ ">" ++ FormattedEvent.month f ++
  "</span><span class=" ++ dq ++ "day" ++ dq ++ ">" ++ FormattedEvent.day f ++
  "</span>" ++
  nl ++ spaces 12 ++
  match FormattedEvent.year f with
  | Some y =>
      nl ++ spaces 28 ++
      "<span class=" ++ dq ++ "year" ++ dq ++ ">" ++ y ++ "</span>" ++
      nl ++ spaces 16
  | None => ""
  end ++
  nl ++ spaces 24 ++ "</div>" ++
  nl ++ spaces 20 ++ "</div>".

(** The description block: the title linked, the time line when there is
    one, the description and the link to read more. *)
Definition description_block (f : FormattedEvent) : string :=
  "<div class=" ++ dq ++ "eventDescription" ++ dq ++ ">" ++
  nl ++ spaces 24 ++
  "<div class=" ++ dq ++ "title" ++ dq ++ "><a href=" ++ dq ++
  FormattedEvent.link f ++ dq ++ ">" ++
  FormattedEvent.title f ++ "</a></div>" ++
  nl ++ spaces 12 ++
  match FormattedEvent.time f with
  | Some t =>
      nl ++ spaces 24 ++
      "<div class=" ++ dq ++ "time" ++ dq ++ ">" ++ t ++ "</div>" ++
      nl ++ spaces 16
  | None => ""
  end ++
  nl ++ spaces 24 ++
  "<div class=" ++ dq ++ "description" ++ dq ++ "><span>" ++
  FormattedEvent.description f ++ "</span></div>" ++
  nl ++ spaces 24 ++
  "<div class=" ++ dq ++ "read-more" ++ dq ++ "><a href=" ++ dq ++
  FormattedEvent.link f ++ dq ++ ">Read more " ++
  much_greater ++ "</a></div>" ++
  nl ++ spaces 20 ++ "</div>".

Definition render (f : FormattedEvent) : string :=
  nl ++ spaces 16 ++
  "<div class=" ++ dq ++ "eventWrap columns col2" ++ dq ++ ">" ++
  nl ++ spaces 20 ++ date_block f ++
  nl ++ spaces 20 ++ description_block f ++
  nl ++ spaces 16 ++ "</div>" ++
  nl ++ spaces 12.

Definition container_open : string :=
  "<div class=" ++ dq ++ "homeEvents row hasBackground" ++ dq ++
  "><div class=" ++ dq ++ "wrapper" ++ dq ++ ">".

Definition container_close : string := "</div></div>".

Fixpoint concat_strings (l : list string) : string :=
  match l with
  | [] => ""
  | x :: l' => x ++ concat_strings l'
  end.

Section Rendering.

Context {host : DateHost}.

Definition render_event (showYear : bool) (ev : CalendarEvent) : string :=
  match CalendarEvent.start ev, CalendarEvent.end_ ev with
  | Some event_start, Some event_end =>
      render (format_event showYear ev event_start event_end)
  | _, _ => ""
  end.

End Rendering.

(** ** Example feeds and pages *)

(** A feed with a timed event that starts at midnight before an all-day
    event of the same day. *)
Definition midnight_event : CalendarEvent :=
  CalendarEvent.make (Some "2025-01-05T00:00") (Some "2025-01-05T01:00")
    (str "timed") undefined undefined.

Definition midnight_feed : XMLDocument :=
  [Item.make ["2025-01-05T00:00"] ["2025-01-05T01:00"]
     (str "timed") undefined undefined;
   all_day_item "2025-01-05" "all day"].

(** A feed of two timed events whose starts name their zones, the earlier
    event first. *)
Definition zoned_item (at_ name : string) : Item :=
  Item.make [at_] [at_] (str name) undefined undefined.

Definition zoned_event (at_ name : string) : CalendarEvent :=
  CalendarEvent.make (Some at_) (Some at_) (str name) undefined undefined.

Definition zoned_feed : XMLDocument :=
  [zoned_item "2025-01-05T10:00Z" "earlier";
   zoned_item "2025-01-05T09:00-05:00" "later"].

(** A feed whose only item has a start that is no timestamp. *)
Definition undated_feed : XMLDocument :=
  [Item.make ["TBD"] ["2025-01-05"] (str "to be decided")
     undefined undefined].

(** An element without attributes. *)
Definition plain_element : HTMLElement :=
  HTMLElement.make None None None None None None.

(** The event of the specification's formatting example. *)
Definition march_event : CalendarEvent :=
  CalendarEvent.make (Some "2025-03-01T09:00") (Some "2025-03-02T17:00")
    (str "Open house") (str "<p>Hello&nbsp; world</p>")
    (str "https://www.ferris.edu/").

(** ** The page *)

(** The request an element makes. *)
Definition request_url (element : HTMLElement) : string :=
  appendToUrl CALENDAR_RSS_URL
    (DataAttr.tags (getDataAttr element))
    (DataAttr.categories (getDataAttr element)).

(** The elements whose content was set, in the order of the assignments. *)
Fixpoint updated (w : list effect) : list nat :=
  match w with
  | [] => []
  | innerHTML_set target _ :: w' => target :: updated w'
  | _ :: w' => updated w'
  end.

(** A network whose request number [k] fails and whose other requests are
    answered with the feed of the example. *)
Definition fails_at (k n : nat) (url : string) : completion XMLDocument :=
  if Nat.eqb n k then Throw "TypeError: Failed to fetch"
  else Normal january_feed.

(** ** Texts *)

(** The character occurs in the text. *)
Fixpoint occurs (c : ascii) (s : string) : bool :=
  match s with
  | EmptyString => false
  | String a s' => Ascii.eqb a c || occurs c s'
  end.

Definition first_char (s : string) : option ascii :=
  match s with
  | EmptyString => None
  | String c _ => Some c
  end.

Fixpoint last_char (s : string) : option ascii :=
  match s with
  | EmptyString => None
  | String c EmptyString => Some c
  | String _ s' => last_char s'
  end.

Definition starts_with_space (s : string) : bool :=
  match s with
  | String c _ => Ascii.eqb c " "
  | EmptyString => false
  end.

(** Two spaces in a row somewhere in the text. *)
Fixpoint double_space (s : string) : bool :=
  match s with
  | String " " ((String " " _) as s') => true
  | String _ s' => double_space s'
  | EmptyString => false
  end.

(** The pattern matches at some position of the text. *)
Fixpoint matches_somewhere (m : matcher) (s : string) : bool :=
  match s with
  | EmptyString => false
  | String _ s' =>
      match m s with
      | Some (S _) => true
      | _ => matches_somewhere m s'
      end
  end.

(** ** The request *)

(** A term with each of its spaces turned into a ["+"]. *)
Definition plus_joined (term : string) : string := replaceAll " " "+" term.

(** A text without the spaces at its start, and without those at its
    end. *)
Definition strip_start (s : string) : string := drop (run_length " " s) s.

Fixpoint strip_end (s : string) : string :=
  match s with
  | EmptyString => EmptyString
  | String c s' =>
      match strip_end s' with
      | EmptyString => if Ascii.eqb c " " then EmptyString else String c EmptyString
      | r => String c r
      end
  end.

(** The terms of a list without the spaces around the commas that
    separated them: those at the end of every term but the last and those
    at the start of every term but the first. *)
Fixpoint after_comma (terms : list string) : list string :=
  match terms with
  | [] => []
  | [t] => [strip_start t]
  | t :: rest => strip_end (strip_start t) :: after_comma rest
  end.

Definition around_commas (terms : list string) : list string :=
  match terms with
  | [] => []
  | [t] => [t]
  | t :: rest => strip_end t :: after_comma rest
  end.

Definition tag_terms (tags : option string) : list string :=
  match tags with
  | Some tags => map plus_joined (split "," tags)
  | None => []
  end.

Definition category_terms (categories : option string) : list string :=
  match categories with
  | Some categories =>
      map plus_joined (around_commas (split "," (trim categories)))
  | None => []
  end.

(** One ["&tag="] parameter for each term, in order. *)
Definition query (terms : list string) : string :=
  concat_strings (map (fun term => "&tag=" ++ term) terms).

(** The terms put together again, a comma between two. *)
Fixpoint join (terms : list string) : string :=
  match terms with
  | [] => ""
  | [t] => t
  | t :: rest => t ++ "," ++ join rest
  end.

(** ** Attributes, selection and the page *)

(** Every character of the text is white space. *)
Fixpoint blank (s : string) : bool :=
  match s with
  | EmptyString => true
  | String c s' => isWhiteSpace c && blank s'
  end.

(** An attribute as the module takes it: absent when it is missing or
    blank, and as written otherwise. *)
Definition attribute (raw : option string) : option string :=
  match raw with
  | Some v => if blank v then None else Some v
  | None => None
  end.

(** How often a character occurs in a text. *)
Fixpoint count_char (c : ascii) (s : string) : nat :=
  match s with
  | EmptyString => O
  | String a s' =>
      if Ascii.eqb a c then S (count_char c s') else count_char c s'
  end.

(** Two events have the same start text. *)
Definition same_start (a b : CalendarEvent) : bool :=
  same_text (CalendarEvent.start a) (CalendarEvent.start b).

Section Listing.

Context {host : DateHost}.

(** The events selected from a feed: the sorted survivors up to the
    count. *)
Definition selection (doc : XMLDocument)
    (dataBegin dataEnd dataCount : option string) : list CalendarEvent :=
  let events := survivors doc dataBegin dataEnd in
  let length := Z.of_nat (List.length events) in
  slice0 (sort compareEvents events)
    (if length <? count_of dataCount then length else count_of dataCount).

(** The text for a sequence of events that have their dates. *)
Definition listing (events : list CalendarEvent)
    (dataShowYear : option string) : string :=
  match events with
  | [] => "There are no events to display."
  | _ :: _ =>
      container_open ++
      concat_strings (map (render_event (show_year dataShowYear)) events) ++
      container_close
  end.

(** The content an element gets from the feed it was answered with. *)
Definition rendering (element : HTMLElement) (doc : XMLDocument) : string :=
  let data := getDataAttr element in
  listing
    (selection doc (DataAttr.begin data) (DataAttr.end_ data)
       (DataAttr.count data))
    (DataAttr.showYear data).

(** The trace of the page when the element at [index + i] is answered with
    the [i]-th document: one assignment for each element. *)
Fixpoint page_effects (index : nat) (elements : list HTMLElement)
    (docs : list XMLDocument) : list effect :=
  match elements, docs with
  | element :: elements', doc :: docs' =>
      innerHTML_set index (rendering element doc) ::
      page_effects (S index) elements' docs'
  | _, _ => []
  end.

End Listing.

(** A network that answers the request number [n] with the [n]-th of the
    documents and fails past them. *)
Definition answers (docs : list XMLDocument) (n : nat) (url : string)
  : completion XMLDocument :=
  match nth_error docs n with
  | Some doc => Normal doc
  | None => Throw "Failed to fetch"
  end.

(** An element with the given count and [show-year] attributes. *)
Definition counted_element (count show : option string) : HTMLElement :=
  HTMLElement.make None None count None None show.

(* ================================================================== *)
(** * Properties *)
(* ================================================================== *)

(** ** Strings *)

Lemma append_assoc (a b c : string) : (a ++ b) ++ c = a ++ (b ++ c).
Proof.
  induction a as [|x a IH]; simpl; [reflexivity | now rewrite IH].
Qed.

Lemma append_empty_r (a : string) : a ++ "" = a.
Proof.
  induction a as [|x a IH]; simpl; [reflexivity | now rewrite IH].
Qed.

Lemma indexOf_lower (c : ascii) (s : string) : -1 <= indexOf c s.
Proof.
  induction s as [|a s IH]; simpl; [lia|].
  destruct (Ascii.eqb a c); [lia|].
  destruct (indexOf c s =? -1) eqn:E; lia.
Qed.

Lemma indexOf_has_time (s : string) :
  (indexOf "T" s =? -1) = negb (has_time s).
Proof.
  induction s as [|a s IH]; simpl; [reflexivity|].
  destruct (Ascii.eqb a "T"); simpl; [reflexivity|].
  rewrite <- IH.
  pose proof (indexOf_lower "T" s).
  destruct (indexOf "T" s =? -1) eqn:E; simpl; [reflexivity|].
  apply Z.eqb_neq in E. apply Z.eqb_neq. lia.
Qed.

Lemma normalized_text (s suffix : string) :
  (if indexOf "T" s =? -1 then s ++ suffix else s) =
  (if has_time s then s else s ++ suffix).
Proof. rewrite indexOf_has_time. now destruct (has_time s). Qed.

(** ** The reference host is a host *)

Lemma TimeClip_range (t z : Z) :
  TimeClip t = Num z -> - MAX_TIME <= z <= MAX_TIME.
Proof.
  unfold TimeClip.
  destruct ((- MAX_TIME <=? t) && (t <=? MAX_TIME)) eqn:E; [|discriminate].
  intros H; injection H as <-.
  apply andb_true_iff in E. lia.
Qed.

Lemma reference_host_laws (tz : Z) : DateHostLaws (ReferenceHost.host tz).
Proof.
  constructor. intros s t. simpl. unfold ReferenceHost.parse.
  destruct (ReferenceHost.date_fields s) as [[day rest]|]; [|discriminate].
  destruct rest as [|c rest]; [apply TimeClip_range|].
  destruct (Ascii.eqb_spec c "T") as [->|Hc].
  - destruct (ReferenceHost.time_fields rest) as [[minutes rest']|];
      [|discriminate].
    destruct (ReferenceHost.zone_fields tz rest'); [|discriminate].
    apply TimeClip_range.
  - destruct c as [[] [] [] [] [] [] [] []]; try discriminate.
    congruence.
Qed.

(** ** C1: the overlap test *)

Section DateRange.

Context {host : DateHost} {laws : DateHostLaws host}.

Lemma eventWithinDateRange_instants (es ee : string) (rb re : option string) :
  eventWithinDateRange (Some es) (Some ee) rb re =
  ret (JS.le (start_instant es)
             match re with Some t => Date_parse t | None => Num MAX_SAFE_INTEGER end
       && JS.le match rb with Some t => Date_parse t | None => Num MIN_SAFE_INTEGER end
                (end_instant ee)).
Proof.
  unfold eventWithinDateRange, start_instant, end_instant.
  now rewrite !normalized_text.
Qed.


End DateRange.

(** ** The order of texts *)

Lemma ascii_compare_N (a b : ascii) :
  Ascii.compare a b = N.compare (N_of_ascii a) (N_of_ascii b).
Proof. reflexivity. Qed.

Lemma string_compare_refl (x : string) : String.compare x x = Eq.
Proof.
  induction x as [|c x IH]; simpl; [reflexivity|].
  now rewrite ascii_compare_N, N.compare_refl.
Qed.

Lemma string_leb_trans (x y z : string) :
  (x <=? y)%string = true -> (y <=? z)%string = true ->
  (x <=? z)%string = true.
Proof.
  unfold String.leb. revert y z.
  induction x as [|a x IH]; intros [|b y] [|c z]; simpl;
    try reflexivity; try discriminate.
  rewrite !ascii_compare_N.
  destruct (N.compare_spec (N_of_ascii a) (N_of_ascii b)) as [E1|L1|G1];
    destruct (N.compare_spec (N_of_ascii b) (N_of_ascii c)) as [E2|L2|G2];
    try discriminate; intros H1 H2.
  - rewrite E1, E2, N.compare_refl. now apply IH with y.
  - rewrite E1. now rewrite (proj2 (N.compare_lt_iff _ _) L2).
  - rewrite <- E2. now rewrite (proj2 (N.compare_lt_iff _ _) L1).
  - now rewrite (proj2 (N.compare_lt_iff _ _) (N.lt_trans _ _ _ L1 L2)).
Qed.

Lemma text_leb_total (a b : option string) :
  text_leb a b = false -> text_leb b a = true.
Proof.
  destruct a as [x|], b as [y|]; simpl; try reflexivity; try discriminate.
  intros H. destruct (String.leb_total x y) as [E|E]; congruence.
Qed.

Lemma text_leb_trans (a b c : option string) :
  text_leb a b = true -> text_leb b c = true -> text_leb a c = true.
Proof.
  destruct a as [x|], b as [y|], c as [z|]; simpl;
    try reflexivity; try discriminate.
  apply string_leb_trans.
Qed.

Lemma same_text_leb (a b : option string) :
  same_text a b = true -> text_leb a b = true.
Proof.
  destruct a as [x|], b as [y|]; simpl; try reflexivity; try discriminate.
  intros H. apply String.eqb_eq in H. subst.
  unfold String.leb. now rewrite string_compare_refl.
Qed.

Lemma same_text_sym (a b : option string) : same_text a b = same_text b a.
Proof.
  destruct a as [x|], b as [y|]; simpl; try reflexivity.
  apply String.eqb_sym.
Qed.

Lemma same_text_trans (a b c : option string) :
  same_text a c = true -> same_text b c = true -> same_text a b = true.
Proof.
  destruct a as [x|], b as [y|], c as [z|]; simpl;
    try reflexivity; try discriminate.
  intros H1 H2. apply String.eqb_eq in H1, H2. subst. apply String.eqb_refl.
Qed.

(** The comparison function orders the events by their start texts. *)
Lemma compareEvents_le (a b : CalendarEvent) :
  (compareEvents a b <=? 0) =
  text_leb (CalendarEvent.start a) (CalendarEvent.start b).
Proof.
  unfold compareEvents, text_leb.
  destruct (CalendarEvent.start a) as [x|], (CalendarEvent.start b) as [y|];
    try reflexivity.
  unfold String.ltb, String.leb. rewrite (String.compare_antisym x y).
  destruct (String.compare y x); reflexivity.
Qed.

(** ** The sort *)

Section Sort.

Context {A : Type} (compare : A -> A -> Z).

Hypothesis le_total :
  forall x y, (compare x y <=? 0) = false -> precedes compare y x.
Hypothesis le_trans :
  forall x y z,
    precedes compare x y -> precedes compare y z -> precedes compare x z.

Lemma insert_perm (x : A) (l : list A) :
  Permutation (insert compare x l) (x :: l).
Proof.
  induction l as [|y l IH]; simpl; [reflexivity|].
  destruct (compare x y <=? 0); [reflexivity|].
  rewrite IH. apply perm_swap.
Qed.

Lemma sort_perm (l : list A) : Permutation (sort compare l) l.
Proof.
  induction l as [|x l IH]; simpl; [reflexivity|].
  rewrite insert_perm. now constructor.
Qed.

Lemma insert_sorted (x : A) (l : list A) :
  StronglySorted (precedes compare) l ->
  StronglySorted (precedes compare) (insert compare x l).
Proof.
  induction 1 as [|y l Hl IH Hy]; simpl.
  - constructor; constructor.
  - destruct (compare x y <=? 0) eqn:E.
    + constructor; [now constructor|].
      constructor; [exact E|].
      eapply Forall_impl; [|exact Hy]. intros z Hz.
      now apply le_trans with y.
    + constructor; [exact IH|].
      apply (Permutation_Forall (x := x :: l)).
      * symmetry. apply insert_perm.
      * constructor; [now apply le_total | exact Hy].
Qed.

Lemma sort_sorted (l : list A) :
  StronglySorted (precedes compare) (sort compare l).
Proof.
  induction l as [|x l IH]; simpl; [constructor | now apply insert_sorted].
Qed.

(** Stability: a class of elements that compare as equal keeps its order. *)
Lemma insert_filter (p : A -> bool) (x : A) (l : list A) :
  (forall y, p x = true -> p y = true -> precedes compare x y) ->
  filter p (insert compare x l) = filter p (x :: l).
Proof.
  intros Hp. induction l as [|y l IH]; simpl; [reflexivity|].
  destruct (compare x y <=? 0) eqn:E; simpl; [reflexivity|].
  simpl in IH. rewrite IH.
  destruct (p x) eqn:Px, (p y) eqn:Py; try reflexivity.
  specialize (Hp y eq_refl Py). unfold precedes in Hp. congruence.
Qed.

Lemma sort_filter (p : A -> bool) (l : list A) :
  (forall x y, p x = true -> p y = true -> precedes compare x y) ->
  filter p (sort compare l) = filter p l.
Proof.
  intros Hp. induction l as [|x l IH]; simpl; [reflexivity|].
  rewrite insert_filter by (intros y; apply Hp).
  simpl. now rewrite IH.
Qed.

Lemma sort_short (l : list A) :
  (1 <? Z.of_nat (List.length l)) = false -> sort compare l = l.
Proof.
  destruct l as [|x [|y l]]; try reflexivity.
  intros H. apply Z.ltb_ge in H. simpl List.length in H. lia.
Qed.

End Sort.

(** ** Selection *)

Lemma bind_ret {A B : Type} (a : A) (k : A -> M B) : bind (ret a) k = k a.
Proof. unfold bind, ret. destruct (k a). reflexivity. Qed.

Lemma bind_run {A B : Type} (w : list effect) (a : A) (k : A -> M B) :
  bind (w, Normal a) k = ((w ++ effects (k a))%list, result (k a)).
Proof. unfold bind, effects, result. now destruct (k a). Qed.


Lemma strongly_sorted_weaken {A : Type} (R Q : A -> A -> Prop) (l : list A) :
  (forall a b, In a l -> In b l -> R a b -> Q a b) ->
  StronglySorted R l -> StronglySorted Q l.
Proof.
  intros H S. induction S as [|x l S IH Hx]; constructor.
  - apply IH. intros a b Ha Hb. apply H; now right.
  - rewrite Forall_forall in *. intros y Hy.
    apply H; [now left | now right | now apply Hx].
Qed.

Lemma slice0_firstn {A : Type} (l : list A) (n : Z) :
  0 <= n ->
  slice0 l (if Z.of_nat (List.length l) <? n then Z.of_nat (List.length l)
            else n)
  = firstn (Z.to_nat n) l.
Proof.
  intros Hn. unfold slice0.
  destruct (Z.ltb_spec (Z.of_nat (List.length l)) n) as [L|L].
  - destruct (Z.ltb_spec (Z.of_nat (List.length l)) 0); [lia|].
    rewrite Z.min_id, Nat2Z.id.
    rewrite !firstn_all2; [reflexivity | lia | lia].
  - destruct (Z.ltb_spec n 0); [lia|].
    now rewrite Z.min_l by lia.
Qed.

Section Selection.

Context {host : DateHost}.

(** The test without a start or an end: it writes to the console, and
    then reports and answers false when the global of the sink is there,
    and throws when it is not. *)
Lemma eventWithinDateRange_null (s e rb re : option string) :
  s = None \/ e = None ->
  eventWithinDateRange s e rb re =
  if Bugsnag_declared
  then ([console_error "Event start or end is null"; console_trace;
         Bugsnag_notify "Event start or end is null"], Normal false)
  else ([console_error "Event start or end is null"; console_trace],
        Throw Bugsnag_is_not_defined).
Proof.
  intros H.
  assert (E : eventWithinDateRange s e rb re =
              (emit (console_error "Event start or end is null") ;;
               emit console_trace ;;
               LogError "Event start or end is null" ;;
               ret false)).
  { destruct H as [-> | ->]; [reflexivity | destruct s; reflexivity]. }
  rewrite E. unfold LogError. now destruct Bugsnag_declared.
Qed.

Lemma survivors_cons (item : Item) (rest : list Item) (b e : option string) :
  survivors (item :: rest) b e =
  (filter (survives b e) (candidate item) ++ survivors rest b e)%list.
Proof. unfold survivors. simpl. apply filter_app. Qed.

Lemma for_items_run (items : list Item) (b e : option string)
    (events : list CalendarEvent) :
  for_items items b e events =
  ret (events ++ survivors items b e)%list.
Proof.
  revert events. induction items as [|item rest IH]; intros events.
  - simpl. now rewrite app_nil_r.
  - rewrite survivors_cons. unfold candidate. cbn [for_items].
    destruct (Item.startElements item) as [|s0 ss];
      [rewrite IH; reflexivity|].
    destruct (Item.endElements item) as [|e0 es];
      [rewrite IH; reflexivity|].
    cbn [filter]. unfold survives at 1.
    cbn [CalendarEvent.start CalendarEvent.end_]. unfold textContent.
    rewrite eventWithinDateRange_instants, bind_ret.
    unfold result, ret. cbn [snd].
    match goal with
    | |- context [negb ?t] => destruct t
    end; cbn [negb]; rewrite IH; [|reflexivity].
    now rewrite <- app_assoc.
Qed.

(** What [getEvents] computes. *)
Lemma getEvents_run (doc : XMLDocument) (b e c : option string) :
  getEvents doc b e c =
  ([], Normal (let events := survivors doc b e in
               let length := Z.of_nat (List.length events) in
               slice0 (sort compareEvents events)
                 (if length <? count_of c then length else count_of c))).
Proof.
  unfold getEvents. rewrite for_items_run, bind_ret. cbn [app]. unfold ret.
  change (match c with
          | Some dataCount =>
              match parseInt dataCount with
              | NaN => 2
              | Num parsedCount => parsedCount
              end
          | None => 2
          end) with (count_of c).
  set (events := survivors doc b e).
  destruct (Z.eqb_spec (Z.of_nat (List.length events)) 0) as [E|E].
  - destruct events; [|simpl in E; lia].
    unfold slice0. simpl sort. now rewrite firstn_nil.
  - destruct (1 <? Z.of_nat (List.length events)) eqn:L.
    + reflexivity.
    + now rewrite (sort_short _ _ L).
Qed.

Lemma survivors_dated (doc : XMLDocument) (b e : option string) :
  Forall dated (survivors doc b e).
Proof.
  unfold survivors. apply Forall_forall. intros ev H.
  apply filter_In in H. destruct H as [_ H].
  unfold survives, dated in *.
  destruct (CalendarEvent.start ev) as [s|] eqn:Es;
    [destruct (CalendarEvent.end_ ev) as [n|] eqn:En;
       [split; discriminate|]|].
  - rewrite (eventWithinDateRange_null (Some s) None b e) in H by now right.
    destruct Bugsnag_declared; discriminate.
  - rewrite (eventWithinDateRange_null None _ b e) in H by now left.
    destruct Bugsnag_declared; discriminate.
Qed.

(** With a count that is not negative, the first [count] events in the
    order of the sort, all of them when there are fewer. *)
Lemma getEvents_count (doc : XMLDocument) (b e c : option string) :
  0 <= count_of c ->
  result (getEvents doc b e c) =
  Normal (firstn (Z.to_nat (count_of c))
            (sort compareEvents (survivors doc b e))).
Proof.
  intros H. rewrite getEvents_run. unfold result. simpl snd. f_equal.
  rewrite <- (slice0_firstn _ _ H).
  now rewrite (Permutation_length (sort_perm compareEvents (survivors doc b e))).
Qed.

End Selection.

(** ** Formatting *)

Section FormattingProperties.

Context {host : DateHost}.

Lemma compact_label (format : Z -> string) (startDate endDate : number) :
  compact (toLocaleString format startDate) (toLocaleString format endDate)
  = label format startDate endDate.
Proof.
  unfold compact, label.
  now destruct (String.eqb (toLocaleString format startDate)
                  (toLocaleString format endDate)).
Qed.

(** One turn of the loop appends the rendering of the event. *)
Lemma for_events_step (ev : CalendarEvent) (rest : list CalendarEvent)
    (d : option string) (htmlResult : string) (s e : string) :
  CalendarEvent.start ev = Some s ->
  CalendarEvent.end_ ev = Some e ->
  for_events (ev :: rest) d htmlResult =
  for_events rest d
    (htmlResult ++ render (format_event (show_year d) ev s e)).
Proof.
  intros Hs He. cbn [for_events]. rewrite Hs, He.
  rewrite !normalized_text, !indexOf_has_time, !compact_label.
  fold (start_instant s). fold (end_instant e). fold (show_year d).
  f_equal.
  unfold render, date_block, description_block, format_event.
  cbn [FormattedEvent.month FormattedEvent.day FormattedEvent.year
       FormattedEvent.time FormattedEvent.link FormattedEvent.title
       FormattedEvent.description].
  rewrite !negb_involutive.
  destruct (show_year d), (has_time s && has_time e);
    rewrite ?append_assoc; reflexivity.
Qed.

Lemma for_events_run (events : list CalendarEvent) (d : option string)
    (htmlResult : string) :
  Forall dated events ->
  for_events events d htmlResult =
  ret (htmlResult ++
       concat_strings (map (render_event (show_year d)) events)).
Proof.
  intros H. revert htmlResult.
  induction H as [|ev rest [Hs He] _ IH]; intros htmlResult.
  - simpl. now rewrite append_empty_r.
  - destruct (CalendarEvent.start ev) as [s|] eqn:Es; [|contradiction].
    destruct (CalendarEvent.end_ ev) as [e|] eqn:Ee; [|contradiction].
    rewrite (for_events_step ev rest d htmlResult s e Es Ee), IH.
    cbn [map concat_strings]. unfold render_event. rewrite Es, Ee.
    now rewrite append_assoc.
Qed.

Lemma getHtml_run (events : list CalendarEvent) (d : option string) :
  events <> [] ->
  Forall dated events ->
  getHtml events d =
  ret (container_open ++
       concat_strings (map (render_event (show_year d)) events) ++
       container_close).
Proof.
  intros Hne H. unfold getHtml.
  destruct events as [|ev rest]; [contradiction|].
  change (Z.of_nat (List.length (ev :: rest)) =? 0) with false.
  cbv iota. rewrite (for_events_run _ _ _ H), bind_ret.
  fold container_open. fold container_close.
  now rewrite append_assoc.
Qed.


End FormattingProperties.

(** ** C2: the order of the selected events *)

Lemma slice0_is_firstn {A : Type} (l : list A) (n : Z) :
  exists k, slice0 l n = firstn k l.
Proof. unfold slice0. eexists. reflexivity. Qed.

Lemma Forall_firstn_of {A : Type} (P : A -> Prop) (k : nat) (l : list A) :
  Forall P l -> Forall P (firstn k l).
Proof.
  intros H. revert k. induction H as [|x l Hx _ IH]; intros [|k]; simpl;
    constructor; auto.
Qed.

Section Order.

Context {host : DateHost}.

Lemma sort_start_le (l : list CalendarEvent) :
  StronglySorted start_le (sort compareEvents l).
Proof.
  eapply strongly_sorted_weaken;
    [|apply (sort_sorted compareEvents)].
  - intros a b _ _ H. unfold start_le. now rewrite <- compareEvents_le.
  - intros x y. unfold precedes. rewrite !compareEvents_le.
    apply text_leb_total.
  - intros x y z. unfold precedes. rewrite !compareEvents_le.
    apply text_leb_trans.
Qed.

Lemma sort_with_start (key : option string) (l : list CalendarEvent) :
  with_start key (sort compareEvents l) = with_start key l.
Proof.
  unfold with_start. apply sort_filter.
  intros x y Hx Hy. unfold precedes. rewrite compareEvents_le.
  apply same_text_leb. now apply same_text_trans with key.
Qed.

(** C2, as the module has it.  Selection returns a prefix of the survivors
    sorted by their start texts: the sorted sequence is a permutation of
    the survivors, ascending in the order of the texts by code units with an
    absent start first, and the events of one start text keep their feed
    order.  The instants of the starts play no part: a relation orders the
    result, as the order of the instants may, when it follows from the
    order of the texts on the survivors.  From the feed with the starts
    2025-01-10, 2025-01-05 and 2025-01-20 and the count 2, selection
    returns the events of 2025-01-05 and 2025-01-10, in this order. *)
Theorem getEvents_sorted_by_start_text
    (doc : XMLDocument) (b e c : option string) :
  let feed := survivors doc b e in
  let sorted := sort compareEvents feed in
  (exists k, getEvents doc b e c = ret (firstn k sorted))
  /\ Permutation sorted feed
  /\ StronglySorted start_le sorted
  /\ (forall key, with_start key sorted = with_start key feed)
  /\ (forall R : CalendarEvent -> CalendarEvent -> Prop,
        (forall x y, In x feed -> In y feed -> start_le x y -> R x y) ->
        StronglySorted R sorted)
  /\ getEvents (host := reference_host) january_feed None None (Some "2")
     = ret [all_day_event "2025-01-05" "b"; all_day_event "2025-01-10" "a"].
Proof.
  intros feed sorted.
  split.
  { rewrite getEvents_run. cbv zeta. fold feed. fold sorted.
    destruct (slice0_is_firstn sorted
                (if Z.of_nat (List.length feed) <? count_of c
                 then Z.of_nat (List.length feed) else count_of c))
      as [k Hk].
    exists k. now rewrite Hk. }
  split; [apply sort_perm|].
  split; [apply sort_start_le|].
  split; [intros key; apply sort_with_start|].
  split; [|vm_compute; reflexivity].
  intros R HR. eapply strongly_sorted_weaken; [|apply sort_start_le].
  intros x y Hx Hy. apply HR.
  - eapply Permutation_in; [apply sort_perm | exact Hx].
  - eapply Permutation_in; [apply sort_perm | exact Hy].
Qed.

End Order.

(** C2, as stated, fails.  Of two survivors with zoned starts the later
    event is returned first, its text being the smaller one; and two
    survivors whose starts are the same instant, a timed event at midnight
    and an all-day event of that day, are returned against their feed
    order. *)
Lemma starts_are_compared_as_texts :
  (start_instant (host := reference_host) "2025-01-05T10:00Z"
   = Num 1736071200000
   /\ start_instant (host := reference_host) "2025-01-05T09:00-05:00"
      = Num 1736085600000
   /\ getEvents (host := reference_host) zoned_feed None None None
      = ret [zoned_event "2025-01-05T09:00-05:00" "later";
             zoned_event "2025-01-05T10:00Z" "earlier"])
  /\ (survivors (host := reference_host) midnight_feed None None
      = [midnight_event; all_day_event "2025-01-05" "all day"]
      /\ start_instant (host := reference_host) "2025-01-05T00:00"
         = start_instant (host := reference_host) "2025-01-05"
      /\ getEvents (host := reference_host) midnight_feed None None None
         = ret [all_day_event "2025-01-05" "all day"; midnight_event]).
Proof. repeat split; vm_compute; reflexivity. Qed.

Lemma getEvents_sorted_by_start_text_witness :
  StronglySorted
    (fun x y : CalendarEvent => CalendarEvent.start x <> None)
    (sort compareEvents
       (survivors (host := reference_host) january_feed None None)).
Proof.
  apply (getEvents_sorted_by_start_text (host := reference_host)
           january_feed None None (Some "2")).
  intros x y Hx _ _.
  pose proof (survivors_dated (host := reference_host)
                january_feed None None) as H.
  rewrite Forall_forall in H. exact (proj1 (H x Hx)).
Defined.

(** ** C3: the count *)

(** C3 at a negative count.  With the count [-2] and three surviving
    events, selection returns one event, the three without the last two,
    where the default count returns the first two. *)
Theorem negative_count_drops_from_the_end :
  parseInt "-2" = Num (-2)
  /\ getEvents (host := reference_host) january_feed None None (Some "-2")
     = ret [all_day_event "2025-01-05" "b"]
  /\ getEvents (host := reference_host) january_feed None None None
     = ret [all_day_event "2025-01-05" "b"; all_day_event "2025-01-10" "a"].
Proof. repeat split; vm_compute; reflexivity. Qed.

(** ** C9: nothing to display *)

(** C9.  Formatting no events gives the fixed text, whatever the
    [show-year] attribute; selection always completes normally, and with
    the empty sequence when no event survives. *)
Theorem nothing_to_display {host : DateHost} :
  (forall dataShowYear,
      getHtml [] dataShowYear = ret "There are no events to display.")
  /\ (forall doc b e c,
         exists events, result (getEvents doc b e c) = Normal events)
  /\ (forall doc b e c,
         survivors doc b e = [] -> result (getEvents doc b e c) = Normal []).
Proof.
  split; [reflexivity|].
  split.
  - intros doc b e c. rewrite getEvents_run. eexists. reflexivity.
  - intros doc b e c H. rewrite getEvents_run, H. unfold result, slice0.
    simpl. now rewrite firstn_nil.
Qed.

Lemma nothing_to_display_witness :
  result (getEvents (host := reference_host) undated_feed None None None)
  = Normal [].
Proof.
  apply (nothing_to_display (host := reference_host)).
  vm_compute. reflexivity.
Defined.

(** ** C10: the selected events have their dates *)





(** ** C4: a timestamp that does not parse *)

Section Unparseable.

Context {host : DateHost}.

Lemma survivors_app (doc1 doc2 : XMLDocument) (b e : option string) :
  survivors (doc1 ++ doc2)%list b e
  = (survivors doc1 b e ++ survivors doc2 b e)%list.
Proof. unfold survivors. now rewrite flat_map_app, filter_app. Qed.

Lemma le_NaN_l (x : number) : JS.le NaN x = false.
Proof. reflexivity. Qed.

Lemma le_NaN_r (x : number) : JS.le x NaN = false.
Proof. now destruct x. Qed.

(** C4, as the module has it.  An item whose start and end are present but
    one of which has no instant fails the overlap test, whatever the range:
    the test answers false and reports nothing, and selection returns what
    it returns for the feed without the item, with the same effects.  No
    error is raised and nothing reaches the error sink. *)
Theorem unparseable_timestamp_is_dropped (es ee : string) :
  start_instant es = NaN \/ end_instant ee = NaN ->
  (forall rb re,
      eventWithinDateRange (Some es) (Some ee) rb re = ([], Normal false))
  /\ (forall item ss ns before after b e c,
         Item.startElements item = es :: ss ->
         Item.endElements item = ee :: ns ->
         getEvents (before ++ item :: after)%list b e c
         = getEvents (before ++ after)%list b e c).
Proof.
  intros H.
  assert (Hdrop : forall rb re,
             eventWithinDateRange (Some es) (Some ee) rb re
             = ([], Normal false)).
  { intros rb re. rewrite eventWithinDateRange_instants. unfold ret.
    do 2 f_equal.
    destruct H as [-> | ->]; rewrite ?le_NaN_l, ?le_NaN_r;
      [reflexivity | apply andb_false_r]. }
  split; [exact Hdrop|].
  intros item ss ns before after b e c Hs He.
  rewrite !getEvents_run.
  change (item :: after) with ([item] ++ after)%list.
  rewrite !survivors_app.
  assert (E2 : survivors [item] b e = []).
  { unfold survivors. cbn [flat_map]. unfold candidate. rewrite Hs, He.
    cbn [app filter]. unfold survives, textContent.
    cbn [CalendarEvent.start CalendarEvent.end_]. now rewrite Hdrop. }
  now rewrite E2.
Qed.

End Unparseable.

(** C4, as stated, fails: the render cycle of a feed whose only item has a
    start without an instant raises nothing and reports nothing; it shows
    the text of an empty selection. *)
Lemma unparseable_start_raises_nothing :
  start_instant (host := reference_host) "TBD" = NaN
  /\ start_module (host := reference_host)
       (fun _ _ => Normal undated_feed) [plain_element]
     = ([innerHTML_set 0 "There are no events to display."], Normal tt).
Proof. split; vm_compute; reflexivity. Qed.

Lemma unparseable_timestamp_is_dropped_witness :
  eventWithinDateRange (host := reference_host)
    (Some "TBD") (Some "2025-01-05") None None = ([], Normal false).
Proof.
  apply (unparseable_timestamp_is_dropped (host := reference_host)
           "TBD" "2025-01-05").
  left. vm_compute. reflexivity.
Defined.

(** ** C6: the labels of an event *)

(** C6.  The text for a sequence of events that have their dates is the
    container around the renderings of the events, each with the labels of
    [format_event]: the month label is the start's short month name,
    followed by ["-"] and the end's when the two names differ, and so are
    the day and the year label on the day and the year; the year label is
    there exactly when the [show-year] attribute is ["true"], and the time
    label, the two short times around [" - "], exactly when the start and
    the end both have a time component. *)
Theorem event_labels {host : DateHost}
    (events : list CalendarEvent) (dataShowYear : option string) :
  events <> [] ->
  Forall dated events ->
  getHtml events dataShowYear =
  ret (container_open ++
       concat_strings (map (render_event (show_year dataShowYear)) events) ++
       container_close)
  /\ forall ev s e,
       In ev events ->
       CalendarEvent.start ev = Some s ->
       CalendarEvent.end_ ev = Some e ->
       let f := format_event (show_year dataShowYear) ev s e in
       let name (format : Z -> string) (date : number) :=
         toLocaleString format date in
       let compacted (format : Z -> string) :=
         if String.eqb (name format (start_instant s))
                       (name format (end_instant e))
         then name format (start_instant s)
         else name format (start_instant s) ++ "-" ++
              name format (end_instant e) in
       render_event (show_year dataShowYear) ev = render f
       /\ FormattedEvent.month f = compacted month_short
       /\ FormattedEvent.day f = compacted day_numeric
       /\ (FormattedEvent.year f <> None <-> dataShowYear = Some "true")
       /\ (dataShowYear = Some "true" ->
           FormattedEvent.year f = Some (compacted year_numeric))
       /\ (FormattedEvent.time f <> None <->
           has_time s = true /\ has_time e = true)
       /\ (has_time s = true -> has_time e = true ->
           FormattedEvent.time f =
           Some (name time_short (start_instant s) ++ " - " ++
                 name time_short (end_instant e))).
Proof.
  intros Hne Hd. split; [now apply getHtml_run|].
  intros ev s e _ Hs He f name compacted.
  split; [unfold render_event; now rewrite Hs, He|].
  split; [reflexivity|]. split; [reflexivity|].
  assert (Hshow : show_year dataShowYear = true <-> dataShowYear = Some "true").
  { unfold show_year. destruct dataShowYear as [v|].
    - rewrite String.eqb_eq. split; congruence.
    - split; discriminate. }
  subst f. unfold format_event.
  cbn [FormattedEvent.year FormattedEvent.time].
  split.
  { rewrite <- Hshow. destruct (show_year dataShowYear);
      split; congruence. }
  split.
  { intros H. apply Hshow in H. now rewrite H. }
  split.
  { rewrite <- andb_true_iff.
    destruct (has_time s && has_time e); split; congruence. }
  intros -> ->. reflexivity.
Qed.

Lemma event_labels_witness :
  getHtml (host := reference_host) [march_event] (Some "true") =
  ret (container_open ++
       concat_strings
         (map (render_event (host := reference_host)
                 (show_year (Some "true"))) [march_event]) ++
       container_close).
Proof.
  apply (event_labels (host := reference_host) [march_event] (Some "true")).
  - discriminate.
  - constructor; [split; discriminate | constructor].
Defined.

(** The labels of the specification's example on the reference host. *)
Example march_event_labels :
  let f := format_event (host := reference_host) true march_event
             "2025-03-01T09:00" "2025-03-02T17:00" in
  FormattedEvent.month f = "Mar"
  /\ FormattedEvent.day f = "1-2"
  /\ FormattedEvent.year f = Some "2025"
  /\ FormattedEvent.time f = Some "9:00 AM - 5:00 PM".
Proof. repeat split; vm_compute; reflexivity. Qed.



(** ** C5: a failing fetch *)

Lemma updated_app (w1 w2 : list effect) :
  updated (w1 ++ w2) = (updated w1 ++ updated w2)%list.
Proof.
  induction w1 as [|x w1 IH]; [reflexivity|].
  destruct x; simpl; now rewrite ?IH.
Qed.


Section Page.

Context {host : DateHost}.
Variable fetchXmlDoc : nat -> string -> completion XMLDocument.


(** A cycle whose request fails ends the loop. *)
Lemma for_elements_rejected (index : nat) (element : HTMLElement)
    (rest : list HTMLElement) (reason : string) :
  fetchXmlDoc index (request_url element) = Throw reason ->
  for_elements fetchXmlDoc index (element :: rest) = ([], Throw reason).
Proof.
  intros Hdoc. cbn [for_elements]. fold (request_url element).
  now rewrite Hdoc.
Qed.


End Page.




(** ** Global replacement *)

Lemma string_length_ind (P : string -> Prop) :
  (forall s, (forall t, (String.length t < String.length s)%nat -> P t) -> P s) ->
  forall s, P s.
Proof.
  intros H s.
  assert (G : forall n t, (String.length t < n)%nat -> P t).
  { induction n as [|n IH]; intros t Ht; [lia|].
    apply H. intros u Hu. apply IH. lia. }
  apply (G (S (String.length s))). lia.
Qed.

Lemma drop_length (k : nat) (s : string) :
  (String.length (drop k s) <= String.length s)%nat.
Proof.
  revert s. induction k as [|k IH]; intros [|c s]; simpl; try lia.
  specialize (IH s). lia.
Qed.

Lemma replace_from_skip (m : matcher) (by_ : string) (k : nat) (s : string) :
  replace_from m by_ k s = replace_g m by_ (drop k s).
Proof.
  unfold replace_g. revert k.
  induction s as [|c s IH]; intros [|k]; try reflexivity.
  simpl. apply IH.
Qed.

Lemma replace_g_cons (m : matcher) (by_ : string) (c : ascii) (s : string) :
  replace_g m by_ (String c s) =
  match m (String c s) with
  | Some (S k) => by_ ++ replace_g m by_ (drop k s)
  | _ => String c (replace_g m by_ s)
  end.
Proof.
  unfold replace_g at 1. simpl.
  destruct (m (String c s)) as [[|k]|]; try reflexivity.
  now rewrite replace_from_skip.
Qed.

(** ** Tags *)

Lemma find_occurs (c : ascii) (s : string) :
  find c s = None <-> occurs c s = false.
Proof.
  induction s as [|a s IH]; simpl; [tauto|].
  destruct (Ascii.eqb a c); simpl; [split; discriminate|].
  destruct (find c s); [|tauto].
  split; [discriminate|]. intros H. apply IH in H. discriminate.
Qed.

Lemma occurs_tail (c a : ascii) (s : string) :
  occurs c (String a s) = false -> occurs c s = false.
Proof. simpl. intros H. apply orb_false_iff in H. tauto. Qed.

Lemma re_tag_without_close (d : ascii) (rest : string) :
  occurs ">" rest = false -> re_tag (String d rest) = None.
Proof.
  intros H. unfold re_tag.
  destruct rest as [|x rest2];
    [destruct d as [[] [] [] [] [] [] [] []]; reflexivity|].
  apply occurs_tail in H. apply find_occurs in H. rewrite H.
  destruct d as [[] [] [] [] [] [] [] []]; reflexivity.
Qed.

Lemma replace_tag_without_close (by_ : string) (d : ascii) (rest : string) :
  occurs ">" rest = false ->
  replace_g re_tag by_ (String d rest) = String d rest.
Proof.
  revert d. induction rest as [|x rest IH]; intros d H.
  - rewrite replace_g_cons, (re_tag_without_close d "" H). reflexivity.
  - rewrite replace_g_cons, (re_tag_without_close d _ H).
    f_equal. apply IH. now apply occurs_tail in H.
Qed.

Lemma re_tag_head (c : ascii) (s : string) (k : nat) :
  re_tag (String c s) = Some k -> c = "<"%char.
Proof.
  unfold re_tag.
  destruct c as [[] [] [] [] [] [] [] []]; try discriminate. reflexivity.
Qed.

Lemma re_tag_open (s : string) :
  re_tag (String "<" s) =
  match s with
  | String _ rest =>
      match find ">" rest with Some n => Some (n + 3)%nat | None => None end
  | EmptyString => None
  end.
Proof. reflexivity. Qed.

(** No tag is left after the replacement. *)
Lemma no_tag_left (s : string) :
  matches_somewhere re_tag (replace_g re_tag " " s) = false.
Proof.
  induction s as [s IH] using string_length_ind.
  destruct s as [|c s]; [reflexivity|].
  rewrite replace_g_cons.
  destruct (re_tag (String c s)) as [[|k]|] eqn:E.
  - apply re_tag_head in E as Hc. subst c. rewrite re_tag_open in E.
    destruct s as [|x rest]; [discriminate|].
    destruct (find ">" rest); [|discriminate].
    injection E as E. lia.
  - change (" " ++ replace_g re_tag " " (drop k s))
      with (String " " (replace_g re_tag " " (drop k s))).
    cbn [matches_somewhere].
    change (re_tag (String " " (replace_g re_tag " " (drop k s))))
      with (@None nat).
    apply IH. simpl. pose proof (drop_length k s). lia.
  - cbn [matches_somewhere].
    assert (R : re_tag (String c (replace_g re_tag " " s)) = None).
    { destruct (Ascii.eqb_spec c "<") as [->|Hc].
      - rewrite re_tag_open in E. destruct s as [|x rest]; [reflexivity|].
        assert (H : occurs ">" rest = false).
        { apply find_occurs. now destruct (find ">" rest). }
        rewrite (replace_tag_without_close " " x rest H), re_tag_open.
        apply find_occurs in H. now rewrite H.
      - destruct (re_tag (String c (replace_g re_tag " " s))) eqn:E';
          [|reflexivity].
        apply re_tag_head in E'. contradiction. }
    rewrite R. apply IH. simpl. lia.
Qed.

Lemma find_append (c : ascii) (a b : string) :
  occurs c a = false ->
  find c (a ++ String c b) = Some (String.length a).
Proof.
  induction a as [|x a IH]; simpl; intros H.
  - now rewrite Ascii.eqb_refl.
  - apply orb_false_iff in H. destruct H as [H1 H2].
    now rewrite H1, IH.
Qed.

Lemma drop_cons (k : nat) (c : ascii) (s : string) :
  drop (S k) (String c s) = drop k s.
Proof. reflexivity. Qed.

Lemma drop_past (a b : string) (c : ascii) :
  drop (S (String.length a)) (a ++ String c b) = b.
Proof. induction a as [|x a IH]; simpl; [now destruct b | exact IH]. Qed.

(** A tag gives way to one space. *)
Lemma tag_replaced_by_space (a body rest : string) (c : ascii) :
  occurs "<" a = false ->
  occurs ">" body = false ->
  replace_g re_tag " " (a ++ "<" ++ String c body ++ ">" ++ rest)
  = a ++ " " ++ replace_g re_tag " " rest.
Proof.
  intros Ha Hb. induction a as [|x a IH].
  - cbn [append]. rewrite replace_g_cons, re_tag_open.
    change (String c body ++ ">" ++ rest)
      with (String c (body ++ String ">" rest)).
    rewrite (find_append ">" body rest Hb).
    replace (String.length body + 3)%nat with (S (S (S (String.length body))))
      by lia.
    cbv beta iota. now rewrite drop_cons, drop_past.
  - cbn [append]. simpl in Ha. apply orb_false_iff in Ha.
    destruct Ha as [Hx Ha].
    rewrite replace_g_cons.
    destruct (re_tag (String x _)) as [k|] eqn:E.
    + apply re_tag_head in E. subst x. discriminate.
    + f_equal. now apply IH.
Qed.

(** ** Runs of spaces *)

Lemma double_space_cons (c : ascii) (s : string) :
  double_space (String c s) =
  (Ascii.eqb c " " && starts_with_space s) || double_space s.
Proof.
  destruct (Ascii.eqb_spec c " ") as [->|Hc].
  - destruct s as [|d s]; [reflexivity|].
    cbn [double_space starts_with_space andb].
    destruct (Ascii.eqb_spec d " ") as [->|Hd]; [reflexivity|].
    destruct d as [[] [] [] [] [] [] [] []]; try reflexivity.
    contradiction.
  - destruct c as [[] [] [] [] [] [] [] []]; try reflexivity.
    contradiction.
Qed.

Lemma run_length_drop (s : string) :
  starts_with_space (drop (run_length " " s) s) = false.
Proof.
  induction s as [|c s IH]; [reflexivity|]. cbn [run_length].
  destruct (Ascii.eqb c " ") eqn:E; [exact IH|].
  cbn [drop starts_with_space]. exact E.
Qed.

Lemma run_length_zero (s : string) :
  starts_with_space s = false -> run_length " " s = O.
Proof. destruct s as [|c s]; [reflexivity|]. simpl. now intros ->. Qed.

Lemma collapse_other (c : ascii) (s : string) :
  Ascii.eqb c " " = false ->
  replace_g re_spaces " " (String c s)
  = String c (replace_g re_spaces " " s).
Proof.
  intros Hc. rewrite replace_g_cons. unfold re_spaces.
  cbn [run_length]. now rewrite Hc.
Qed.

Lemma collapse_space (s : string) :
  replace_g re_spaces " " (String " " s)
  = String " " (replace_g re_spaces " " (drop (run_length " " s) s)).
Proof.
  rewrite replace_g_cons. unfold re_spaces. cbn [run_length Ascii.eqb].
  change (Ascii.eqb " " " ") with true. cbv iota.
  destruct (run_length " " s) as [|n] eqn:E.
  - reflexivity.
  - reflexivity.
Qed.

Lemma collapse_start (s : string) :
  starts_with_space s = false ->
  starts_with_space (replace_g re_spaces " " s) = false.
Proof.
  destruct s as [|c s]; [reflexivity|]. cbn [starts_with_space].
  intros Hc. now rewrite (collapse_other c s Hc).
Qed.

(** No run of spaces is left after the replacement. *)
Lemma no_run_left (s : string) :
  double_space (replace_g re_spaces " " s) = false.
Proof.
  induction s as [s IH] using string_length_ind.
  destruct s as [|c s]; [reflexivity|].
  destruct (Ascii.eqb_spec c " ") as [->|Hc].
  - rewrite collapse_space, double_space_cons.
    rewrite (collapse_start _ (run_length_drop s)), andb_false_r.
    apply IH. simpl. pose proof (drop_length (run_length " " s) s). lia.
  - apply Ascii.eqb_neq in Hc.
    rewrite (collapse_other c s Hc), double_space_cons, Hc.
    apply IH. simpl. lia.
Qed.

(** ** Trimming *)

Lemma space_is_white (c : ascii) :
  Ascii.eqb c " " = true -> isWhiteSpace c = true.
Proof. intros H. apply Ascii.eqb_eq in H. now subst. Qed.

Lemma trimStart_first (s : string) (c : ascii) :
  first_char (trimStart s) = Some c -> isWhiteSpace c = false.
Proof.
  induction s as [|a s IH]; [discriminate|]. cbn [trimStart].
  destruct (isWhiteSpace a) eqn:E; [exact IH|].
  cbn [first_char]. now intros [= <-].
Qed.

Lemma trimStart_double_space (s : string) :
  double_space s = false -> double_space (trimStart s) = false.
Proof.
  induction s as [|a s IH]; [reflexivity|]. cbn [trimStart].
  destruct (isWhiteSpace a); [|trivial].
  rewrite double_space_cons. intros H. apply orb_false_iff in H.
  now apply IH.
Qed.

Lemma trimEnd_first (s : string) (c : ascii) :
  first_char (trimEnd s) = Some c -> first_char s = Some c.
Proof.
  destruct s as [|a s]; [discriminate|]. cbn [trimEnd].
  destruct (trimEnd s); [destruct (isWhiteSpace a)|]; try discriminate;
    trivial.
Qed.

Lemma trimEnd_start (s : string) :
  starts_with_space (trimEnd s) = true -> starts_with_space s = true.
Proof.
  destruct s as [|a s]; [discriminate|]. cbn [trimEnd].
  destruct (trimEnd s); [destruct (isWhiteSpace a)|]; try discriminate;
    trivial.
Qed.

Lemma trimEnd_last (s : string) (c : ascii) :
  last_char (trimEnd s) = Some c -> isWhiteSpace c = false.
Proof.
  induction s as [|a s IH]; [discriminate|]. cbn [trimEnd].
  destruct (trimEnd s) as [|b r].
  - destruct (isWhiteSpace a) eqn:E; [discriminate|].
    cbn [last_char]. now intros [= <-].
  - exact IH.
Qed.

Lemma trimEnd_double_space (s : string) :
  double_space s = false -> double_space (trimEnd s) = false.
Proof.
  induction s as [|a s IH]; [reflexivity|].
  rewrite double_space_cons. intros H. apply orb_false_iff in H.
  destruct H as [H1 H2]. specialize (IH H2). cbn [trimEnd].
  pose proof (trimEnd_start s) as Hs.
  destruct (trimEnd s) as [|b r].
  - destruct (isWhiteSpace a); [reflexivity|].
    rewrite double_space_cons. cbn [starts_with_space double_space].
    now rewrite andb_false_r.
  - rewrite double_space_cons, IH, orb_false_r.
    destruct (Ascii.eqb a " "); [|reflexivity].
    destruct (starts_with_space (String b r)); [|reflexivity].
    rewrite Hs in H1 by reflexivity. discriminate.
Qed.

(** What a trimmed text is like at its ends. *)
Lemma trim_ends (s : string) (c : ascii) :
  first_char (trim s) = Some c \/ last_char (trim s) = Some c ->
  isWhiteSpace c = false.
Proof.
  unfold trim. intros [H|H].
  - apply trimEnd_first in H. now apply trimStart_first in H.
  - now apply trimEnd_last in H.
Qed.

(** ** C7: the description *)

(** C7, as the module has it.  An absent description gives the empty text.
    Otherwise every tag, a ["<"] with the shortest text of at least one
    character up to a [">"], gives way to one space, so that no tag is
    left; then every run of two or more spaces gives way to one space; then
    the white space at both ends is dropped.  The result has no two spaces
    in a row and no white space at its ends.  Character references are
    left as they are: ["<p>Hello&nbsp; world</p>"] becomes
    ["Hello&nbsp; world"]. *)
Theorem removeTags_sanitizes :
  removeTags null = "" /\ removeTags undefined = ""
  /\ (forall html,
         removeTags (str html)
         = trim (replace_g re_spaces " " (replace_g re_tag " " html)))
  /\ (forall html,
         matches_somewhere re_tag (replace_g re_tag " " html) = false)
  /\ (forall before c body rest,
         occurs "<" before = false -> occurs ">" body = false ->
         replace_g re_tag " " (before ++ "<" ++ String c body ++ ">" ++ rest)
         = before ++ " " ++ replace_g re_tag " " rest)
  /\ (forall text, double_space (replace_g re_spaces " " text) = false)
  /\ (forall html,
         double_space (removeTags html) = false
         /\ forall c,
              first_char (removeTags html) = Some c
              \/ last_char (removeTags html) = Some c ->
              isWhiteSpace c = false)
  /\ removeTags (str "<p>Hello&nbsp; world</p>") = "Hello&nbsp; world".
Proof.
  split; [reflexivity|]. split; [reflexivity|]. split; [reflexivity|].
  split; [exact no_tag_left|].
  split; [intros; now apply tag_replaced_by_space|].
  split; [exact no_run_left|].
  split; [|reflexivity].
  intros [| |html]; cbn [removeTags]; try (split; [reflexivity|]).
  - intros c [H|H]; discriminate.
  - intros c [H|H]; discriminate.
  - split.
    + unfold trim.
      apply trimEnd_double_space, trimStart_double_space, no_run_left.
    + intros c. apply trim_ends.
Qed.

(** C7, as stated, fails: the character reference of the example stays in
    the result. *)
Lemma character_reference_is_kept :
  removeTags (str "<p>Hello&nbsp; world</p>") <> "Hello world".
Proof. vm_compute. discriminate. Qed.

Lemma removeTags_sanitizes_witness :
  replace_g re_tag " " ("a" ++ "<" ++ String "b" "r /" ++ ">" ++ "c")
  = "a" ++ " " ++ replace_g re_tag " " "c".
Proof.
  apply removeTags_sanitizes; reflexivity.
Defined.

(** ** Terms between commas *)

Lemma split_cons (sep c : ascii) (s : string) :
  split sep (String c s) =
  if Ascii.eqb c sep then "" :: split sep s
  else match split sep s with
       | [] => [String c ""]
       | t :: ts => String c t :: ts
       end.
Proof. reflexivity. Qed.

Lemma split_not_nil (sep : ascii) (s : string) : split sep s <> [].
Proof.
  induction s as [|c s IH]; [discriminate|]. rewrite split_cons.
  destruct (Ascii.eqb c sep); [discriminate|].
  destruct (split sep s); discriminate.
Qed.

Lemma split_without (sep : ascii) (t : string) :
  occurs sep t = false -> split sep t = [t].
Proof.
  induction t as [|c t IH]; [reflexivity|]. simpl.
  intros H. apply orb_false_iff in H. destruct H as [Hc Ht].
  now rewrite Hc, (IH Ht).
Qed.

Lemma split_append (sep : ascii) (t rest : string) :
  occurs sep t = false ->
  split sep (t ++ String sep rest) = t :: split sep rest.
Proof.
  induction t as [|c t IH]; simpl; intros H.
  - now rewrite Ascii.eqb_refl.
  - apply orb_false_iff in H. destruct H as [Hc Ht].
    now rewrite Hc, (IH Ht).
Qed.

Lemma split_terms (sep : ascii) (s : string) :
  Forall (fun t => occurs sep t = false) (split sep s).
Proof.
  induction s as [|c s IH]; [repeat constructor|]. rewrite split_cons.
  destruct (Ascii.eqb c sep) eqn:E; [now constructor|].
  destruct (split sep s) as [|t ts]; [repeat constructor; simpl; now rewrite E|].
  inversion IH as [|? ? Ht Hts]; subst.
  constructor; [simpl; now rewrite E, Ht | exact Hts].
Qed.

Lemma join_cons (t u : string) (ts : list string) :
  join (t :: u :: ts) = t ++ String "," (join (u :: ts)).
Proof. reflexivity. Qed.

Lemma join_split (s : string) : join (split "," s) = s.
Proof.
  induction s as [|c s IH]; [reflexivity|]. rewrite split_cons.
  pose proof (split_not_nil "," s) as Hne.
  destruct (Ascii.eqb_spec c ",") as [->|Hc].
  - destruct (split "," s) as [|t ts]; [contradiction|].
    rewrite join_cons, IH. reflexivity.
  - destruct (split "," s) as [|t ts]; [contradiction|].
    destruct ts as [|u ts].
    + simpl in *. now rewrite IH.
    + rewrite join_cons in IH |- *. cbn [append]. now rewrite IH.
Qed.

(** ** Spaces at the ends of a term *)

Lemma run_length_append (t rest : string) (c : ascii) :
  Ascii.eqb c " " = false ->
  run_length " " (t ++ String c rest) = run_length " " t.
Proof.
  intros Hc. induction t as [|a t IH]; simpl; [now rewrite Hc|].
  destruct (Ascii.eqb a " "); [now rewrite IH | reflexivity].
Qed.

Lemma run_length_le (s : string) :
  (run_length " " s <= String.length s)%nat.
Proof.
  induction s as [|a s IH]; simpl; [lia|].
  destruct (Ascii.eqb a " "); lia.
Qed.

Lemma drop_append (k : nat) (t rest : string) :
  (k <= String.length t)%nat -> drop k (t ++ rest) = drop k t ++ rest.
Proof.
  revert t. induction k as [|k IH]; intros [|a t]; simpl; intros H;
    try reflexivity; try lia.
  apply IH. lia.
Qed.

Lemma strip_start_append (t rest : string) :
  strip_start (t ++ String "," rest) = strip_start t ++ String "," rest.
Proof.
  unfold strip_start. rewrite run_length_append by reflexivity.
  apply drop_append, run_length_le.
Qed.

Lemma occurs_drop (c : ascii) (k : nat) (s : string) :
  occurs c s = false -> occurs c (drop k s) = false.
Proof.
  revert s. induction k as [|k IH]; intros [|a s]; simpl; trivial.
  intros H. apply orb_false_iff in H. now apply IH.
Qed.

Lemma occurs_strip_start (c : ascii) (s : string) :
  occurs c s = false -> occurs c (strip_start s) = false.
Proof. apply occurs_drop. Qed.

Lemma strip_end_cons (c : ascii) (s : string) :
  strip_end (String c s) =
  match strip_end s with
  | "" => if Ascii.eqb c " " then "" else String c ""
  | r => String c r
  end.
Proof. reflexivity. Qed.

Lemma occurs_strip_end (c : ascii) (s : string) :
  occurs c s = false -> occurs c (strip_end s) = false.
Proof.
  induction s as [|a s IH]; [trivial|]. rewrite strip_end_cons. simpl.
  intros H. apply orb_false_iff in H. destruct H as [Ha Hs].
  specialize (IH Hs).
  destruct (strip_end s) as [|b r].
  - destruct (Ascii.eqb a " "); simpl; [reflexivity | now rewrite Ha].
  - simpl in *. now rewrite Ha, IH.
Qed.

(** A term of spaces only. *)
Lemma strip_end_empty (t : string) :
  strip_end t = "" -> run_length " " t = String.length t.
Proof.
  induction t as [|a t IH]; [reflexivity|]. rewrite strip_end_cons.
  destruct (strip_end t); [|discriminate].
  simpl. destruct (Ascii.eqb a " "); [|discriminate].
  intros _. now rewrite IH.
Qed.

(** A term with something else than spaces: after its first spaces comes
    a character of the term that is no space. *)
Lemma strip_end_not_empty (t : string) :
  strip_end t <> "" ->
  exists d rest,
    drop (run_length " " t) t = String d rest
    /\ Ascii.eqb d " " = false
    /\ (run_length " " t < String.length t)%nat
    /\ (forall c, occurs c t = false -> Ascii.eqb d c = false).
Proof.
  induction t as [|a t IH]; [contradiction|]. rewrite strip_end_cons.
  intros H. simpl run_length.
  destruct (Ascii.eqb a " ") eqn:Ea.
  - destruct (strip_end t) as [|b r] eqn:Et; [contradiction|].
    destruct IH as (d & rest & Hd & Hsp & Hlt & Hocc); [discriminate|].
    exists d, rest. simpl. repeat split; trivial; [lia|].
    intros c Hc. apply orb_false_iff in Hc. now apply Hocc.
  - exists a, t. simpl. repeat split; trivial; [lia|].
    intros c Hc. apply orb_false_iff in Hc. tauto.
Qed.

(** ** The spaces around the commas *)

Lemma drop_all (t : string) : drop (String.length t) t = "".
Proof. induction t as [|a t IH]; [reflexivity | exact IH]. Qed.

Lemma drop_add (t rest : string) (c : ascii) (m : nat) :
  drop (String.length t + 1 + m) (t ++ String c rest) = drop m rest.
Proof.
  induction t as [|a t IH]; [|exact IH].
  simpl. reflexivity.
Qed.

Lemma re_comma_head (s rest : string) (d : ascii) :
  drop (run_length " " s) s = String d rest ->
  Ascii.eqb d "," = false ->
  re_comma s = None.
Proof.
  intros H Hd. unfold re_comma. rewrite H.
  destruct d as [[] [] [] [] [] [] [] []]; try reflexivity. discriminate.
Qed.

Lemma re_comma_spaces (t rest : string) :
  strip_end t = "" ->
  re_comma (t ++ String "," rest)
  = Some (String.length t + 1 + run_length " " rest)%nat.
Proof.
  intros H. unfold re_comma.
  rewrite run_length_append by reflexivity.
  rewrite (strip_end_empty t H), drop_append by lia.
  now rewrite drop_all.
Qed.

Lemma run_length_inside (t x : string) :
  (run_length " " t < String.length t)%nat ->
  run_length " " (t ++ x) = run_length " " t.
Proof.
  induction t as [|a t IH]; simpl; [lia|].
  destruct (Ascii.eqb a " "); [|reflexivity].
  intros H. rewrite IH; [reflexivity | lia].
Qed.

Lemma re_comma_term (t x : string) :
  strip_end t <> "" -> occurs "," t = false -> re_comma (t ++ x) = None.
Proof.
  intros H Hc.
  destruct (strip_end_not_empty t H) as (d & rest & Hd & _ & Hlt & Hocc).
  apply (re_comma_head _ (rest ++ x) d).
  - rewrite (run_length_inside t x Hlt), drop_append by lia.
    now rewrite Hd.
  - now apply Hocc.
Qed.

Lemma re_comma_without (t : string) :
  occurs "," t = false -> re_comma t = None.
Proof.
  intros Hc. destruct (strip_end t) as [|b r] eqn:E.
  - unfold re_comma. now rewrite (strip_end_empty t E), drop_all.
  - rewrite <- (append_empty_r t). apply re_comma_term; [|exact Hc].
    rewrite E. discriminate.
Qed.

(** A text without a comma stays as it is. *)
Lemma commas_without (t : string) :
  occurs "," t = false -> replace_g re_comma "," t = t.
Proof.
  induction t as [|c t IH]; [reflexivity|]. intros H.
  rewrite replace_g_cons, (re_comma_without _ H).
  apply occurs_tail in H. now rewrite IH.
Qed.

(** The spaces before a comma and those after it go. *)
Lemma commas_term (t rest : string) :
  occurs "," t = false ->
  replace_g re_comma "," (t ++ String "," rest)
  = strip_end t ++ String "," (replace_g re_comma "," (strip_start rest)).
Proof.
  induction t as [|c t IH]; intros H.
  - pose proof (re_comma_spaces "" rest eq_refl) as R.
    cbn [append String.length Nat.add] in R.
    cbn [append strip_end]. rewrite replace_g_cons, R. reflexivity.
  - pose proof (occurs_tail _ _ _ H) as Ht.
    destruct (strip_end (String c t)) as [|b r] eqn:E.
    + cbn [append]. rewrite replace_g_cons.
      change (String c (t ++ String "," rest))
        with (String c t ++ String "," rest).
      rewrite (re_comma_spaces _ rest E).
      cbn [String.length Nat.add append]. now rewrite drop_add.
    + rewrite <- E. cbn [append]. rewrite replace_g_cons.
      change (String c (t ++ String "," rest))
        with (String c t ++ String "," rest).
      rewrite re_comma_term; [|rewrite E; discriminate | exact H].
      rewrite (IH Ht). rewrite strip_end_cons in E |- *.
      destruct (strip_end t); [|reflexivity].
      destruct (Ascii.eqb c " "); [discriminate | reflexivity].
Qed.

Lemma commas_after (t : string) (ts : list string) :
  Forall (fun t => occurs "," t = false) (t :: ts) ->
  split "," (replace_g re_comma "," (strip_start (join (t :: ts))))
  = after_comma (t :: ts).
Proof.
  revert t. induction ts as [|u ts IH]; intros t H.
  - inversion H as [|? ? Ht _]; subst. cbn [join after_comma].
    pose proof (occurs_strip_start "," t Ht) as Hs.
    now rewrite (commas_without _ Hs), (split_without _ _ Hs).
  - inversion H as [|? ? Ht Hts]; subst.
    rewrite join_cons, strip_start_append.
    rewrite commas_term by now apply occurs_strip_start.
    rewrite split_append
      by now apply occurs_strip_end, occurs_strip_start.
    rewrite (IH u Hts). reflexivity.
Qed.

Lemma commas_around (ts : list string) :
  Forall (fun t => occurs "," t = false) ts ->
  ts <> [] ->
  split "," (replace_g re_comma "," (join ts)) = around_commas ts.
Proof.
  destruct ts as [|t [|u ts]]; intros H Hne.
  - contradiction.
  - inversion H as [|? ? Ht _]; subst. cbn [join around_commas].
    now rewrite (commas_without _ Ht), (split_without _ _ Ht).
  - inversion H as [|? ? Ht Hts]; subst.
    rewrite join_cons, (commas_term _ _ Ht).
    rewrite split_append by now apply occurs_strip_end.
    now rewrite (commas_after u ts Hts).
Qed.

(** The terms of the text without the spaces around its commas. *)
Lemma split_commas (s : string) :
  split "," (replace_g re_comma "," s) = around_commas (split "," s).
Proof.
  rewrite <- (join_split s) at 1.
  apply commas_around; [apply split_terms | apply split_not_nil].
Qed.

(** ** C8: the request *)

Lemma split_plus (s : string) :
  split "," (replaceAll " " "+" s) = map plus_joined (split "," s).
Proof.
  induction s as [|c s IH]; [reflexivity|].
  cbn [replaceAll]. rewrite !split_cons, IH.
  pose proof (split_not_nil "," s) as Hne.
  destruct (Ascii.eqb c " ") eqn:E.
  - apply Ascii.eqb_eq in E. subst c.
    change (Ascii.eqb "+" ",") with false.
    change (Ascii.eqb " " ",") with false. cbv iota.
    destruct (split "," s) as [|t ts]; [contradiction | reflexivity].
  - destruct (Ascii.eqb c ","); [reflexivity|].
    destruct (split "," s) as [|t ts]; [contradiction|].
    cbn [map]. unfold plus_joined at 3. cbn [replaceAll].
    now rewrite E.
Qed.

Lemma append_terms_query (url : string) (terms : list string) :
  append_terms url terms = url ++ query terms.
Proof.
  unfold query. revert url.
  induction terms as [|t ts IH]; intros url; cbn [append_terms map concat_strings].
  - now rewrite append_empty_r.
  - now rewrite IH, !append_assoc.
Qed.

Lemma plus_joined_spaces (t : string) : occurs " " (plus_joined t) = false.
Proof.
  unfold plus_joined. induction t as [|c t IH]; [reflexivity|].
  cbn [replaceAll occurs]. rewrite IH, orb_false_r.
  destruct (Ascii.eqb c " ") eqn:E; [reflexivity | exact E].
Qed.

Lemma plus_joined_commas (t : string) :
  occurs "," t = false -> occurs "," (plus_joined t) = false.
Proof.
  unfold plus_joined. induction t as [|c t IH]; [reflexivity|].
  cbn [replaceAll occurs]. intros H. apply orb_false_iff in H.
  destruct H as [Hc Ht]. rewrite (IH Ht), orb_false_r.
  destruct (Ascii.eqb c " "); [reflexivity | exact Hc].
Qed.

Lemma after_comma_commas (ts : list string) :
  Forall (fun t => occurs "," t = false) ts ->
  Forall (fun t => occurs "," t = false) (after_comma ts).
Proof.
  induction 1 as [|t ts Ht Hts IH]; [constructor|].
  cbn [after_comma]. destruct ts as [|u ts].
  - constructor; [now apply occurs_strip_start | constructor].
  - constructor; [|exact IH].
    now apply occurs_strip_end, occurs_strip_start.
Qed.

Lemma around_commas_commas (ts : list string) :
  Forall (fun t => occurs "," t = false) ts ->
  Forall (fun t => occurs "," t = false) (around_commas ts).
Proof.
  intros H. destruct H as [|t ts Ht Hts]; [constructor|].
  cbn [around_commas]. destruct ts as [|u ts].
  - constructor; [exact Ht | constructor].
  - constructor; [now apply occurs_strip_end|].
    now apply after_comma_commas.
Qed.

(** A term of the request holds no space and no comma. *)
Lemma plus_joined_terms (ts : list string) :
  Forall (fun t => occurs "," t = false) ts ->
  Forall (fun t => occurs " " t = false /\ occurs "," t = false)
    (map plus_joined ts).
Proof.
  induction 1 as [|t ts Ht _ IH]; cbn [map]; constructor; [|exact IH].
  split; [apply plus_joined_spaces | now apply plus_joined_commas].
Qed.

Lemma request_terms (tags categories : option string) :
  Forall (fun t => occurs " " t = false /\ occurs "," t = false)
    (tag_terms tags ++ category_terms categories)%list.
Proof.
  apply Forall_app. split.
  - destruct tags as [tags|]; [|constructor].
    apply plus_joined_terms, split_terms.
  - destruct categories as [categories|]; [|constructor].
    apply plus_joined_terms, around_commas_commas, split_terms.
Qed.

Lemma plus_joined_spaceless (term : string) :
  occurs " " term = false -> plus_joined term = term.
Proof.
  unfold plus_joined.
  induction term as [|c term IH]; [reflexivity|].
  cbn [replaceAll occurs]. intros H. apply orb_false_iff in H.
  destruct H as [Hc H]. rewrite Hc, IH by exact H. reflexivity.
Qed.

(** C8, as the module has it.  The request is the base address followed by
    one ["&tag="] parameter for each term, the terms of the tags first and
    then those of the categories.  Of the white space only the space,
    U+0020, is touched: the terms of the tags are the texts between the
    commas of the attribute, each space of a term turned into a ["+"], the
    one after a comma too.  The categories are trimmed, the spaces before
    and after each comma go, and the terms are the texts between the commas,
    each remaining space turned into a ["+"].  A term without a space is
    left as it is, whatever other white space it holds.  No term holds a
    space or a comma.  The tags ["music, art"] give the two terms ["music"]
    and ["+art"], the categories ["food,  fun"] the two terms ["food"] and
    ["fun"]. *)
Theorem appendToUrl_query (url : string) (tags categories : option string) :
  appendToUrl url tags categories
  = url ++ query (tag_terms tags) ++ query (category_terms categories)
  /\ Forall (fun t => occurs " " t = false /\ occurs "," t = false)
       (tag_terms tags ++ category_terms categories)%list
  /\ (forall term, occurs " " term = false -> plus_joined term = term)
  /\ appendToUrl url (Some "music, art") (Some "food,  fun")
     = url ++ "&tag=music&tag=+art" ++ "&tag=food&tag=fun"
  /\ tag_terms (Some "music, art") = ["music"; "+art"]
  /\ category_terms (Some "food,  fun") = ["food"; "fun"]
  /\ List.length (tag_terms (Some "music, art")) = 2%nat
  /\ List.length (category_terms (Some "food,  fun")) = 2%nat.
Proof.
  assert (H : forall tags categories,
             appendToUrl url tags categories
             = url ++ query (tag_terms tags) ++
               query (category_terms categories)).
  { clear. intros tags categories. unfold appendToUrl.
    destruct tags as [tags|], categories as [categories|];
      cbn [tag_terms category_terms];
      rewrite ?append_terms_query, ?split_plus, ?split_commas, ?append_assoc;
      try reflexivity.
    - unfold query at 2. cbn [map concat_strings].
      now rewrite append_empty_r.
    - unfold query. cbn [map concat_strings]. now rewrite !append_empty_r. }
  split; [apply H|]. split; [apply request_terms|].
  split; [apply plus_joined_spaceless|].
  split; [|repeat split; reflexivity].
  rewrite H. reflexivity.
Qed.

(** Only the space is white space to the module.  A tab inside a tag stays
    in the request; a line break and the spaces after it, following the
    comma of the categories, stay in the term, the spaces as ["+"]; and the
    space after the comma of the tags ["music, art"] becomes a ["+"] at the
    start of the second term. *)
Lemma only_spaces_are_replaced :
  appendToUrl "U" (Some ("live" ++ tab ++ "music")) None
  = "U&tag=live" ++ tab ++ "music"
  /\ appendToUrl "U" None (Some ("food," ++ nl ++ "   fun"))
     = "U&tag=food&tag=" ++ nl ++ "+++fun"
  /\ appendToUrl "U" (Some "music, art") None = "U&tag=music&tag=+art"
  /\ isWhiteSpace "009" = true
  /\ isWhiteSpace "010" = true.
Proof. repeat split; vm_compute; reflexivity. Qed.

Lemma appendToUrl_query_witness :
  occurs " " ("live" ++ tab ++ "music") = false
  /\ plus_joined ("live" ++ tab ++ "music") = "live" ++ tab ++ "music".
Proof.
  split; [reflexivity|].
  destruct (appendToUrl_query "U" None None) as (_ & _ & H & _).
  apply H. reflexivity.
Defined.

(* ================================================================== *)
(** * Further properties *)
(* ================================================================== *)

(** ** The count *)

Lemma getEvents_selection {host : DateHost}
    (doc : XMLDocument) (b e c : option string) :
  getEvents doc b e c = ([], Normal (selection doc b e c)).
Proof. apply getEvents_run. Qed.

Lemma sort_length {A : Type} (compare : A -> A -> Z) (l : list A) :
  List.length (sort compare l) = List.length l.
Proof. apply Permutation_length, sort_perm. Qed.

(** X1.  With a count that is no negative number, selection returns the
    first [count] of the sorted survivors, all of them when there are
    fewer: as many events as the smaller of the count and the number of
    survivors.  An absent count and one that [parseInt] does not read are
    the count 2, and the count 0 selects nothing. *)
Theorem getEvents_takes_count {host : DateHost}
    (doc : XMLDocument) (b e c : option string) :
  0 <= count_of c ->
  let sorted := sort compareEvents (survivors doc b e) in
  result (getEvents doc b e c) = Normal (firstn (Z.to_nat (count_of c)) sorted)
  /\ List.length (selection doc b e c)
     = Nat.min (Z.to_nat (count_of c)) (List.length (survivors doc b e))
  /\ (c = None \/ (exists text, c = Some text /\ parseInt text = NaN) ->
      result (getEvents doc b e c) = Normal (firstn 2 sorted))
  /\ (count_of c = 0 -> result (getEvents doc b e c) = Normal []).
Proof.
  intros H sorted.
  assert (R : result (getEvents doc b e c)
              = Normal (firstn (Z.to_nat (count_of c)) sorted)).
  { rewrite getEvents_run. unfold result. cbn [snd]. f_equal.
    rewrite <- (slice0_firstn _ _ H). subst sorted.
    now rewrite sort_length. }
  split; [exact R|]. split.
  - assert (E : selection doc b e c = firstn (Z.to_nat (count_of c)) sorted).
    { rewrite getEvents_selection in R. unfold result in R. cbn [snd] in R.
      congruence. }
    rewrite E, length_firstn. subst sorted. now rewrite sort_length.
  - split.
    + intros [-> | (text & -> & Hn)]; rewrite R; unfold count_of;
        rewrite ?Hn; reflexivity.
    + intros Z0. rewrite R, Z0. reflexivity.
Qed.

Lemma getEvents_takes_count_witness :
  result (getEvents (host := reference_host) january_feed None None
            (Some "7 at most"))
  = Normal (firstn (Z.to_nat (count_of (Some "7 at most")))
              (sort compareEvents
                 (survivors (host := reference_host) january_feed None None))).
Proof.
  apply (getEvents_takes_count (host := reference_host)
           january_feed None None (Some "7 at most")).
  vm_compute. discriminate.
Defined.

(** X2.  With a negative count [-k], selection returns the sorted
    survivors without the last [k] of them, and nothing when there are no
    more than [k]: the count reaches [slice] as an end counted from the end
    of the array. *)
Theorem getEvents_negative_count {host : DateHost}
    (doc : XMLDocument) (b e c : option string) (k : nat) :
  count_of c = - Z.of_nat k ->
  (0 < k)%nat ->
  let sorted := sort compareEvents (survivors doc b e) in
  result (getEvents doc b e c)
  = Normal (firstn (List.length sorted - k) sorted)
  /\ (List.length (survivors doc b e) <= k ->
      result (getEvents doc b e c) = Normal [])%nat.
Proof.
  intros Hc Hk sorted.
  assert (R : result (getEvents doc b e c)
              = Normal (firstn (List.length sorted - k) sorted)).
  { rewrite getEvents_run. unfold result. cbn [snd]. f_equal.
    cbv zeta. rewrite Hc. fold sorted.
    destruct (Z.ltb_spec (Z.of_nat (List.length (survivors doc b e)))
                (- Z.of_nat k)); [lia|].
    unfold slice0.
    destruct (Z.ltb_spec (- Z.of_nat k) 0); [|lia].
    f_equal. subst sorted. rewrite sort_length. lia. }
  split; [exact R|].
  intros Hle. rewrite R. subst sorted. rewrite sort_length.
  replace (List.length (survivors doc b e) - k)%nat with O by lia.
  reflexivity.
Qed.

Lemma getEvents_negative_count_witness :
  result (getEvents (host := reference_host) january_feed None None
            (Some "-1"))
  = Normal
      (firstn
         (List.length
            (sort compareEvents
               (survivors (host := reference_host) january_feed None None))
          - 1)
         (sort compareEvents
            (survivors (host := reference_host) january_feed None None))).
Proof.
  apply (getEvents_negative_count (host := reference_host)
           january_feed None None (Some "-1") 1).
  - reflexivity.
  - lia.
Defined.

(** ** An event without a date in the formatter *)

(** The turn of the loop at an event without a start or an end. *)
Lemma for_events_undated {host : DateHost} (ev : CalendarEvent)
    (rest : list CalendarEvent) (d : option string) (htmlResult : string) :
  CalendarEvent.start ev = None \/ CalendarEvent.end_ ev = None ->
  for_events (ev :: rest) d htmlResult =
  if Bugsnag_declared
  then ([console_trace; Bugsnag_notify "Event date is invalid"],
        Throw "Error: Event date is invalid")
  else ([console_trace], Throw Bugsnag_is_not_defined).
Proof.
  intros H.
  assert (E : for_events (ev :: rest) d htmlResult =
              (emit console_trace ;;
               LogError "Event date is invalid" ;;
               throw ("Error: " ++ "Event date is invalid"))).
  { cbn [for_events].
    destruct (CalendarEvent.start ev), (CalendarEvent.end_ ev);
      try reflexivity.
    destruct H; discriminate. }
  rewrite E. unfold LogError. now destruct Bugsnag_declared.
Qed.

(** X3.  When an event without a start or without an end is among the
    events, behind events that have both, formatting writes a console
    trace and throws, and no text is returned, whatever the earlier events
    gave.  On a page with the global of the error sink it reports "Event
    date is invalid" once and throws the error of that message; on a page
    without it the report itself throws, and nothing is reported. *)
Theorem getHtml_throws_on_undated {host : DateHost}
    (before : list CalendarEvent) (ev : CalendarEvent)
    (after : list CalendarEvent) (dataShowYear : option string) :
  Forall dated before ->
  CalendarEvent.start ev = None \/ CalendarEvent.end_ ev = None ->
  getHtml (before ++ ev :: after)%list dataShowYear =
  if Bugsnag_declared
  then ([console_trace; Bugsnag_notify "Event date is invalid"],
        Throw "Error: Event date is invalid")
  else ([console_trace], Throw Bugsnag_is_not_defined).
Proof.
  intros Hb Hev. unfold getHtml.
  assert (F : forall acc,
             for_events (before ++ ev :: after)%list dataShowYear acc =
             if Bugsnag_declared
             then ([console_trace; Bugsnag_notify "Event date is invalid"],
                   Throw "Error: Event date is invalid")
             else ([console_trace], Throw Bugsnag_is_not_defined)).
  { induction Hb as [|x before [Hs He] _ IH]; intros acc.
    - now apply for_events_undated.
    - destruct (CalendarEvent.start x) as [s|] eqn:Es; [|contradiction].
      destruct (CalendarEvent.end_ x) as [e|] eqn:Ee; [|contradiction].
      cbn [app].
      rewrite (for_events_step x _ dataShowYear acc s e Es Ee). apply IH. }
  assert (L : (Z.of_nat (List.length (before ++ ev :: after)%list) =? 0)
              = false).
  { apply Z.eqb_neq. rewrite length_app. simpl. lia. }
  rewrite L, F. now destruct Bugsnag_declared.
Qed.

Lemma getHtml_throws_on_undated_witness :
  getHtml (host := without_Bugsnag reference_host)
    ([march_event] ++
     CalendarEvent.make None (Some "2025-01-05") null null null :: [])%list
    None =
  ([console_trace], Throw "ReferenceError: Bugsnag is not defined").
Proof.
  apply (getHtml_throws_on_undated (host := without_Bugsnag reference_host)).
  - constructor; [split; discriminate | constructor].
  - left. reflexivity.
Defined.

(** ** What selection writes *)

(** X4.  Selection never throws and writes nothing, whatever the feed, the
    range, the count and the state of the error sink: the elements of a
    document have their texts, so the report of the overlap test for a
    missing start or end is not reached from a feed.  That report, where
    the test is called without a start or an end, writes the message "Event
    start or end is null" to the console with a trace, and then notifies
    the sink once and answers false on a page with the global of the sink,
    and throws on a page without it. *)
Theorem getEvents_reports {host : DateHost}
    (doc : XMLDocument) (b e c : option string) :
  (exists events, getEvents doc b e c = ([], Normal events))
  /\ (forall s n,
         s = None \/ n = None ->
         eventWithinDateRange s n b e =
         if Bugsnag_declared
         then ([console_error "Event start or end is null"; console_trace;
                Bugsnag_notify "Event start or end is null"], Normal false)
         else ([console_error "Event start or end is null"; console_trace],
               Throw Bugsnag_is_not_defined)).
Proof.
  split.
  - rewrite getEvents_run. eexists. reflexivity.
  - intros s n. apply eventWithinDateRange_null.
Qed.

Lemma getEvents_reports_witness :
  eventWithinDateRange (host := without_Bugsnag reference_host)
    (Some "2025-01-05") None None None =
  ([console_error "Event start or end is null"; console_trace],
   Throw "ReferenceError: Bugsnag is not defined").
Proof.
  apply (getEvents_reports (host := without_Bugsnag reference_host) []
           None None None).
  right. reflexivity.
Defined.

(** ** The text of a selection *)

Lemma getHtml_listing {host : DateHost}
    (events : list CalendarEvent) (dataShowYear : option string) :
  Forall dated events ->
  getHtml events dataShowYear = ret (listing events dataShowYear).
Proof.
  intros H. destruct events as [|ev rest]; [reflexivity|].
  apply getHtml_run; [discriminate | exact H].
Qed.

Lemma listing_fallback {host : DateHost}
    (events : list CalendarEvent) (dataShowYear : option string) :
  listing events dataShowYear = "There are no events to display."
  <-> events = [].
Proof.
  split; [|now intros ->].
  destruct events as [|ev rest]; [reflexivity|].
  cbn [listing]. unfold container_open. discriminate.
Qed.

(** ** Ranges without ends and ranges that do not parse *)

Section Ranges.

Context {host : DateHost}.

(** X5.  Without a begin and an end of the range the test answers true
    exactly when the start and the end of the event both parse, in whatever
    order the two instants are: the safe-integer bounds lie beyond every
    time value. *)
Theorem unbounded_range_takes_parsed {laws : DateHostLaws host}
    (es ee : string) :
  exists v,
    eventWithinDateRange (Some es) (Some ee) None None = ret v
    /\ (v = true <->
        exists s e, start_instant es = Num s /\ end_instant ee = Num e).
Proof.
  rewrite eventWithinDateRange_instants. eexists. split; [reflexivity|].
  destruct (start_instant es) as [|s] eqn:Hs;
    destruct (end_instant ee) as [|e] eqn:He; cbn [JS.le andb].
  - split; [discriminate | intros (s & e & H & _); discriminate].
  - split; [discriminate | intros (s & e' & H & _); discriminate].
  - split; [now rewrite andb_false_r | intros (s' & e & _ & H); discriminate].
  - pose proof (Date_parse_range _ _ Hs). pose proof (Date_parse_range _ _ He).
    unfold MAX_SAFE_INTEGER, MIN_SAFE_INTEGER, MAX_TIME in *.
    split; [intros _; now exists s, e|]. intros _.
    apply andb_true_iff. split; apply Z.leb_le; lia.
Qed.

Lemma survives_false_all (doc : XMLDocument) (b e : option string) :
  (forall ev, survives b e ev = false) ->
  survivors doc b e = [].
Proof.
  intros H. unfold survivors.
  induction (flat_map candidate doc) as [|ev l IH]; [reflexivity|].
  cbn [filter]. now rewrite H.
Qed.

(** X6.  A begin or an end of the range that is given but does not parse
    excludes every event, whatever its dates: the test answers false for
    every start and end, no event survives, selection returns no event,
    and the element gets the text of an empty selection. *)
Theorem unparsed_range_selects_nothing
    (text : string) (doc : XMLDocument) (other c dataShowYear : option string) :
  Date_parse text = NaN ->
  (forall s n : string,
      eventWithinDateRange (Some s) (Some n) (Some text) other = ret false
      /\ eventWithinDateRange (Some s) (Some n) other (Some text) = ret false)
  /\ (forall ev,
         survives (Some text) other ev = false
         /\ survives other (Some text) ev = false)
  /\ getEvents doc (Some text) other c = ret []
  /\ getEvents doc other (Some text) c = ret []
  /\ getHtml (selection doc (Some text) other c) dataShowYear
     = ret "There are no events to display."
  /\ getHtml (selection doc other (Some text) c) dataShowYear
     = ret "There are no events to display.".
Proof.
  intros H.
  assert (T : forall s n : string,
             eventWithinDateRange (Some s) (Some n) (Some text) other
             = ret false
             /\ eventWithinDateRange (Some s) (Some n) other (Some text)
                = ret false).
  { intros s n.
    rewrite !eventWithinDateRange_instants, H.
    rewrite le_NaN_l, le_NaN_r, andb_false_r. split; reflexivity. }
  assert (V : forall ev,
             survives (Some text) other ev = false
             /\ survives other (Some text) ev = false).
  { intros ev. unfold survives.
    destruct (CalendarEvent.start ev) as [s|] eqn:Es;
      [destruct (CalendarEvent.end_ ev) as [n|] eqn:En|].
    - destruct (T s n) as [-> ->]. split; reflexivity.
    - rewrite !(eventWithinDateRange_null (Some s) None) by now right.
      destruct Bugsnag_declared; split; reflexivity.
    - rewrite !(eventWithinDateRange_null None) by now left.
      destruct Bugsnag_declared; split; reflexivity. }
  assert (S1 : survivors doc (Some text) other = [])
    by (apply survives_false_all; intros; apply V).
  assert (S2 : survivors doc other (Some text) = [])
    by (apply survives_false_all; intros; apply V).
  assert (E1 : selection doc (Some text) other c = []).
  { unfold selection. rewrite S1. unfold slice0. cbn [sort].
    apply firstn_nil. }
  assert (E2 : selection doc other (Some text) c = []).
  { unfold selection. rewrite S2. unfold slice0. cbn [sort].
    apply firstn_nil. }
  split; [exact T|]. split; [exact V|].
  rewrite !getEvents_selection, E1, E2. repeat split; reflexivity.
Qed.

End Ranges.

Lemma unbounded_range_takes_parsed_witness :
  exists v,
    eventWithinDateRange (host := reference_host)
      (Some "2025-01-09") (Some "2025-01-02") None None = ret v
    /\ (v = true <->
        exists s e,
          start_instant (host := reference_host) "2025-01-09" = Num s
          /\ end_instant (host := reference_host) "2025-01-02" = Num e).
Proof.
  exact (unbounded_range_takes_parsed (host := reference_host)
           (laws := reference_host_laws (-300)) "2025-01-09" "2025-01-02").
Defined.

Lemma unparsed_range_selects_nothing_witness :
  getEvents (host := reference_host) january_feed (Some "next week") None None
  = ret [].
Proof.
  apply (unparsed_range_selects_nothing (host := reference_host)
           "next week" january_feed None None None).
  vm_compute. reflexivity.
Defined.

(** ** The comparison function *)

Lemma compareEvents_values (a b : CalendarEvent) :
  compareEvents a b = -1 \/ compareEvents a b = 0 \/ compareEvents a b = 1.
Proof.
  unfold compareEvents.
  destruct (CalendarEvent.start a) as [x|], (CalendarEvent.start b) as [y|];
    auto.
  destruct (x <? y)%string; auto. destruct (y <? x)%string; auto.
Qed.

Lemma compareEvents_opp (a b : CalendarEvent) :
  compareEvents b a = - compareEvents a b.
Proof.
  unfold compareEvents.
  destruct (CalendarEvent.start a) as [x|], (CalendarEvent.start b) as [y|];
    try reflexivity.
  unfold String.ltb. rewrite (String.compare_antisym x y).
  destruct (String.compare y x); reflexivity.
Qed.

Lemma compareEvents_zero (a b : CalendarEvent) :
  compareEvents a b = 0 <-> same_start a b = true.
Proof.
  unfold compareEvents, same_start, same_text.
  destruct (CalendarEvent.start a) as [x|], (CalendarEvent.start b) as [y|];
    try (split; [reflexivity || discriminate | reflexivity || discriminate]).
  unfold String.ltb. rewrite (String.compare_antisym x y).
  destruct (String.compare y x) eqn:E; cbn [CompOpp].
  - apply String.compare_eq_iff in E. subst y.
    rewrite String.eqb_refl. tauto.
  - split; [discriminate|]. intros H. apply String.eqb_eq in H. subst y.
    rewrite string_compare_refl in E. discriminate.
  - split; [discriminate|]. intros H. apply String.eqb_eq in H. subst y.
    rewrite string_compare_refl in E. discriminate.
Qed.

Lemma compareEvents_le_iff (a b : CalendarEvent) :
  compareEvents a b <= 0
  <-> text_leb (CalendarEvent.start a) (CalendarEvent.start b) = true.
Proof. rewrite <- compareEvents_le. symmetry. apply Z.leb_le. Qed.

(** X7.  The comparison function given to the sort is consistent: it
    answers -1, 0 or 1; exchanging its arguments negates its answer; it
    answers 0 exactly for two events of the same start text, both absent
    or both the same text; and its order is transitive.  So the sorted
    order of the events does not depend on the sorting algorithm of the
    host, up to the order of events of the same start text. *)
Theorem compareEvents_consistent (a b c : CalendarEvent) :
  (compareEvents a b = -1 \/ compareEvents a b = 0 \/ compareEvents a b = 1)
  /\ compareEvents b a = - compareEvents a b
  /\ (compareEvents a b = 0 <-> same_start a b = true)
  /\ (compareEvents a b <= 0 -> compareEvents b c <= 0 ->
      compareEvents a c <= 0)
  /\ (compareEvents a b < 0 -> compareEvents b c < 0 ->
      compareEvents a c < 0).
Proof.
  split; [apply compareEvents_values|].
  split; [apply compareEvents_opp|].
  split; [apply compareEvents_zero|].
  assert (T : forall u v w,
             compareEvents u v <= 0 -> compareEvents v w <= 0 ->
             compareEvents u w <= 0).
  { intros u v w. rewrite !compareEvents_le_iff. apply text_leb_trans. }
  split; [apply T|].
  intros H1 H2.
  destruct (Z.lt_ge_cases (compareEvents a c) 0) as [L|G]; [exact L|].
  assert (Hca : compareEvents c a <= 0)
    by (rewrite (compareEvents_opp a c); lia).
  assert (Hcb : compareEvents c b <= 0) by (apply (T c a b); lia).
  rewrite (compareEvents_opp b c) in Hcb. lia.
Qed.

Lemma compareEvents_consistent_witness :
  compareEvents (all_day_event "2025-01-05" "b")
    (all_day_event "2025-01-20" "c") < 0.
Proof.
  apply (compareEvents_consistent (all_day_event "2025-01-05" "b")
           (all_day_event "2025-01-10" "a") (all_day_event "2025-01-20" "c"));
    reflexivity.
Defined.

(** ** Attributes *)

Lemma trimStart_blank (s : string) : blank (trimStart s) = blank s.
Proof.
  induction s as [|c s IH]; [reflexivity|]. cbn [trimStart blank].
  destruct (isWhiteSpace c) eqn:E; [exact IH|].
  cbn [blank]. now rewrite E.
Qed.

Lemma trimEnd_empty (s : string) : trimEnd s = "" <-> blank s = true.
Proof.
  induction s as [|c s IH]; [tauto|]. cbn [trimEnd blank].
  rewrite andb_true_iff, <- IH.
  destruct (trimEnd s) as [|a r].
  - destruct (isWhiteSpace c); split; try tauto; try discriminate.
    intros [H _]. discriminate.
  - split; [discriminate|]. intros [_ H]. discriminate.
Qed.

Lemma trim_empty (s : string) : String.eqb (trim s) "" = blank s.
Proof.
  unfold trim. rewrite <- trimStart_blank.
  destruct (blank (trimStart s)) eqn:E.
  - apply trimEnd_empty in E. now rewrite E.
  - apply String.eqb_neq. intros H. apply trimEnd_empty in H. congruence.
Qed.

Lemma isNullOrEmpty_attribute (raw : option string) :
  (if isNullOrEmpty raw then None else raw) = attribute raw.
Proof.
  destruct raw as [v|]; [|reflexivity]. cbn [isNullOrEmpty attribute].
  now rewrite trim_empty.
Qed.

Lemma appendToUrl_nothing (url : string) : appendToUrl url None None = url.
Proof. reflexivity. Qed.

(** X8.  Each of the six attributes is taken as absent when it is missing
    or holds nothing but white space, and exactly as written otherwise,
    with the white space around it: an attribute the module works with is
    never blank.  An element whose tags and categories are missing or
    blank requests the address of the calendar as it is. *)
Theorem getDataAttr_attributes (element : HTMLElement) :
  getDataAttr element =
  DataAttr.make
    (attribute (HTMLElement.data_begin element))
    (attribute (HTMLElement.data_end element))
    (attribute (HTMLElement.data_count element))
    (attribute (HTMLElement.data_tags element))
    (attribute (HTMLElement.data_categories element))
    (attribute (HTMLElement.data_show_year element))
  /\ (forall raw v,
         attribute raw = Some v -> raw = Some v /\ blank v = false)
  /\ (forall raw,
         attribute raw = None <->
         raw = None \/ exists v, raw = Some v /\ blank v = true)
  /\ (attribute (HTMLElement.data_tags element) = None ->
      attribute (HTMLElement.data_categories element) = None ->
      request_url element = CALENDAR_RSS_URL).
Proof.
  assert (G : getDataAttr element =
              DataAttr.make
                (attribute (HTMLElement.data_begin element))
                (attribute (HTMLElement.data_end element))
                (attribute (HTMLElement.data_count element))
                (attribute (HTMLElement.data_tags element))
                (attribute (HTMLElement.data_categories element))
                (attribute (HTMLElement.data_show_year element))).
  { unfold getDataAttr.
    cbn [DataAttr.begin DataAttr.end_ DataAttr.count DataAttr.tags
         DataAttr.categories DataAttr.showYear].
    now rewrite !isNullOrEmpty_attribute. }
  split; [exact G|]. split; [|split].
  - intros [v'|] v; cbn [attribute]; [|discriminate].
    destruct (blank v') eqn:E; [discriminate|].
    intros [= <-]. now split.
  - intros [v|]; cbn [attribute].
    + destruct (blank v) eqn:E.
      * split; [|reflexivity]. intros _. right. now exists v.
      * split; [discriminate|]. intros [H|(v' & [= <-] & H)]; congruence.
    + split; [now left | reflexivity].
  - intros Ht Hc. unfold request_url. rewrite G.
    cbn [DataAttr.tags DataAttr.categories]. now rewrite Ht, Hc.
Qed.

Lemma getDataAttr_attributes_witness :
  request_url
    (HTMLElement.make None None (Some "3") (Some "   ") None (Some "true"))
  = CALENDAR_RSS_URL.
Proof.
  apply getDataAttr_attributes; reflexivity.
Defined.

(** ** The parameters of the request *)

Lemma split_length (sep : ascii) (s : string) :
  List.length (split sep s) = S (count_char sep s).
Proof.
  induction s as [|c s IH]; [reflexivity|]. rewrite split_cons.
  cbn [count_char]. pose proof (split_not_nil sep s) as Hne.
  destruct (Ascii.eqb c sep).
  - cbn [List.length]. now rewrite IH.
  - destruct (split sep s) as [|t ts]; [contradiction|]. exact IH.
Qed.

Lemma after_comma_length (ts : list string) :
  List.length (after_comma ts) = List.length ts.
Proof.
  induction ts as [|t ts IH]; [reflexivity|]. cbn [after_comma].
  destruct ts as [|u ts]; [reflexivity|].
  cbn [List.length] in *. now rewrite IH.
Qed.

Lemma around_commas_length (ts : list string) :
  List.length (around_commas ts) = List.length ts.
Proof.
  destruct ts as [|t [|u ts]]; try reflexivity.
  cbn [around_commas List.length]. now rewrite after_comma_length.
Qed.

Lemma white_is_no_comma (c : ascii) :
  isWhiteSpace c = true -> Ascii.eqb c "," = false.
Proof.
  intros H. destruct (Ascii.eqb_spec c ","); [subst; discriminate|].
  reflexivity.
Qed.

Lemma trimStart_commas (s : string) :
  count_char "," (trimStart s) = count_char "," s.
Proof.
  induction s as [|c s IH]; [reflexivity|]. cbn [trimStart].
  destruct (isWhiteSpace c) eqn:E; [|reflexivity].
  cbn [count_char]. now rewrite (white_is_no_comma c E).
Qed.

Lemma trimEnd_commas (s : string) :
  count_char "," (trimEnd s) = count_char "," s.
Proof.
  induction s as [|c s IH]; [reflexivity|]. cbn [trimEnd count_char].
  destruct (trimEnd s) as [|a r].
  - rewrite <- IH. cbn [count_char].
    destruct (isWhiteSpace c) eqn:E.
    + now rewrite (white_is_no_comma c E).
    + reflexivity.
  - rewrite <- IH. reflexivity.
Qed.

Lemma appendToUrl_terms (url : string) (tags categories : option string) :
  appendToUrl url tags categories
  = url ++ query (tag_terms tags) ++ query (category_terms categories).
Proof.
  unfold appendToUrl.
  destruct tags as [tags|], categories as [categories|];
    cbn [tag_terms category_terms];
    rewrite ?append_terms_query, ?split_plus, ?split_commas, ?append_assoc;
    try reflexivity.
  - unfold query at 2. cbn [map concat_strings].
    now rewrite append_empty_r.
  - unfold query. cbn [map concat_strings]. now rewrite !append_empty_r.
Qed.

(** X9.  A tags or categories attribute that is there gives one parameter
    more than it has commas, so at least one, and a term between two
    commas that is empty still gives its parameter; an absent attribute
    gives none.  The comma count of the categories is not changed by
    trimming.  The request always starts with the base address. *)
Theorem appendToUrl_parameter_count
    (url : string) (tags categories : option string) :
  let count (attr : option string) :=
    match attr with
    | Some text => S (count_char "," text)
    | None => O
    end in
  appendToUrl url tags categories
  = url ++ query (tag_terms tags) ++ query (category_terms categories)
  /\ List.length (tag_terms tags) = count tags
  /\ List.length (category_terms categories) = count categories.
Proof.
  intros count.
  split; [apply appendToUrl_terms|]. split.
  - destruct tags as [tags|]; [|reflexivity]. cbn [tag_terms count].
    now rewrite length_map, split_length.
  - destruct categories as [categories|]; [|reflexivity].
    cbn [category_terms count].
    rewrite length_map, around_commas_length, split_length.
    unfold trim. now rewrite trimEnd_commas, trimStart_commas.
Qed.

(** ** A description that is clean already *)

Lemma replace_g_nowhere (m : matcher) (by_ : string) (s : string) :
  matches_somewhere m s = false -> replace_g m by_ s = s.
Proof.
  induction s as [|c s IH]; [reflexivity|]. cbn [matches_somewhere].
  rewrite replace_g_cons.
  destruct (m (String c s)) as [[|k]|]; try discriminate;
    intros H; now rewrite (IH H).
Qed.

Lemma no_run_nowhere (s : string) :
  double_space s = false -> matches_somewhere re_spaces s = false.
Proof.
  induction s as [|c s IH]; [reflexivity|].
  rewrite double_space_cons. intros H. apply orb_false_iff in H.
  destruct H as [H1 H2]. cbn [matches_somewhere].
  assert (R : re_spaces (String c s) = None).
  { unfold re_spaces. cbn [run_length].
    destruct (Ascii.eqb c " "); [|reflexivity].
    cbn [andb] in H1. now rewrite (run_length_zero s H1). }
  rewrite R. now apply IH.
Qed.

Lemma trimEnd_kept (s : string) :
  (forall c, last_char s = Some c -> isWhiteSpace c = false) ->
  trimEnd s = s.
Proof.
  induction s as [|a s IH]; [reflexivity|]. intros H. cbn [trimEnd].
  destruct s as [|b r].
  - cbn [trimEnd]. now rewrite (H a eq_refl).
  - rewrite IH; [reflexivity|]. intros c Hc. apply H. exact Hc.
Qed.

Lemma trim_kept (s : string) :
  (forall c,
      first_char s = Some c \/ last_char s = Some c ->
      isWhiteSpace c = false) ->
  trim s = s.
Proof.
  intros H. unfold trim.
  assert (S : trimStart s = s).
  { destruct s as [|a s]; [reflexivity|]. cbn [trimStart].
    now rewrite (H a (or_introl eq_refl)). }
  rewrite S. apply trimEnd_kept. intros c Hc. apply H. now right.
Qed.

(** What is left of a text without tags has no tag either. *)

Lemma tag_free_cons (c : ascii) (s : string) :
  matches_somewhere re_tag (String c s) = false <->
  re_tag (String c s) = None /\ matches_somewhere re_tag s = false.
Proof.
  cbn [matches_somewhere].
  destruct (re_tag (String c s)) as [[|k]|] eqn:E.
  - apply re_tag_head in E as Hc. subst c. rewrite re_tag_open in E.
    destruct s as [|x rest]; [discriminate|].
    destruct (find ">" rest); [|discriminate]. injection E as E. lia.
  - split; [discriminate | intros [H _]; discriminate].
  - tauto.
Qed.

Lemma tag_free_drop (k : nat) (s : string) :
  matches_somewhere re_tag s = false ->
  matches_somewhere re_tag (drop k s) = false.
Proof.
  revert s. induction k as [|k IH]; intros [|c s] H; try exact H.
  cbn [drop]. apply IH. now apply tag_free_cons in H.
Qed.

Lemma re_tag_none (c x : ascii) (rest : string) :
  re_tag (String c (String x rest)) = None <->
  c <> "<"%char \/ occurs ">" rest = false.
Proof.
  destruct (Ascii.eqb_spec c "<") as [->|Hc].
  - rewrite re_tag_open, <- find_occurs.
    destruct (find ">" rest); split; try tauto; try discriminate.
    intros [H|H]; [contradiction | discriminate].
  - split; [now left|]. intros _.
    destruct (re_tag (String c (String x rest))) eqn:E; [|reflexivity].
    apply re_tag_head in E. contradiction.
Qed.

Lemma re_tag_short (c : ascii) : re_tag (String c "") = None.
Proof. destruct c as [[] [] [] [] [] [] [] []]; reflexivity. Qed.

Lemma occurs_collapse (c : ascii) (s : string) :
  occurs c s = false -> occurs c (replace_g re_spaces " " s) = false.
Proof.
  induction s as [s IH] using string_length_ind.
  destruct s as [|a s]; [trivial|]. intros H.
  pose proof (occurs_tail _ _ _ H) as Hs.
  destruct (Ascii.eqb_spec a " ") as [->|Ha].
  - rewrite collapse_space. cbn [occurs] in H |- *.
    apply orb_false_iff in H. destruct H as [H1 _]. rewrite H1. cbn [orb].
    apply IH; [|now apply occurs_drop].
    simpl. pose proof (drop_length (run_length " " s) s). lia.
  - apply Ascii.eqb_neq in Ha. rewrite (collapse_other a s Ha).
    cbn [occurs] in H |- *. apply orb_false_iff in H.
    destruct H as [H1 _]. rewrite H1. cbn [orb].
    apply IH; [simpl; lia | exact Hs].
Qed.

(** The text after the first character of a collapsed text comes from the
    text after the first character. *)
Lemma collapse_tail (c x : ascii) (rest : string) :
  occurs c rest = false ->
  exists y rest',
    replace_g re_spaces " " (String x rest) = String y rest'
    /\ occurs c rest' = false.
Proof.
  intros H. destruct (Ascii.eqb_spec x " ") as [->|Hx].
  - rewrite collapse_space. eexists _, _. split; [reflexivity|].
    now apply occurs_collapse, occurs_drop.
  - apply Ascii.eqb_neq in Hx. rewrite (collapse_other x rest Hx).
    eexists _, _. split; [reflexivity|]. now apply occurs_collapse.
Qed.

Lemma tag_free_collapse (s : string) :
  matches_somewhere re_tag s = false ->
  matches_somewhere re_tag (replace_g re_spaces " " s) = false.
Proof.
  induction s as [s IH] using string_length_ind.
  destruct s as [|c s]; [trivial|]. intros H.
  apply tag_free_cons in H. destruct H as [Hc Hs].
  destruct (Ascii.eqb_spec c " ") as [->|Hsp].
  - rewrite collapse_space. apply tag_free_cons. split; [reflexivity|].
    apply IH; [|now apply tag_free_drop].
    simpl. pose proof (drop_length (run_length " " s) s). lia.
  - apply Ascii.eqb_neq in Hsp. rewrite (collapse_other c s Hsp).
    apply tag_free_cons. split; [|apply IH; [simpl; lia | exact Hs]].
    destruct s as [|x rest]; [apply re_tag_short|].
    apply re_tag_none in Hc. destruct Hc as [Hc|Hc].
    + destruct (replace_g re_spaces " " (String x rest)) as [|y r];
        [apply re_tag_short|].
      apply re_tag_none. now left.
    + destruct (collapse_tail ">" x rest Hc) as (y & r & -> & Hr).
      apply re_tag_none. now right.
Qed.

Lemma tag_free_trimStart (s : string) :
  matches_somewhere re_tag s = false ->
  matches_somewhere re_tag (trimStart s) = false.
Proof.
  induction s as [|c s IH]; [trivial|]. intros H. cbn [trimStart].
  destruct (isWhiteSpace c); [|exact H].
  apply IH. now apply tag_free_cons in H.
Qed.

Lemma occurs_trimEnd (c : ascii) (s : string) :
  occurs c s = false -> occurs c (trimEnd s) = false.
Proof.
  induction s as [|a s IH]; [trivial|]. intros H. cbn [trimEnd].
  cbn [occurs] in H. apply orb_false_iff in H. destruct H as [Ha Hs].
  specialize (IH Hs).
  destruct (trimEnd s) as [|b r].
  - destruct (isWhiteSpace a); [reflexivity|]. cbn [occurs]. now rewrite Ha.
  - cbn [occurs] in IH |- *. now rewrite Ha, IH.
Qed.

Lemma trimEnd_cons_tail (a x : ascii) (rest : string) :
  exists t,
    (trimEnd (String a (String x rest)) = t
     /\ (t = "" \/ t = String a ""
         \/ exists r, t = String a (String x r)
                      /\ (r = trimEnd rest \/ r = ""))).
Proof.
  eexists. split; [reflexivity|]. cbn [trimEnd].
  destruct (trimEnd rest) as [|b r].
  - destruct (isWhiteSpace x).
    + destruct (isWhiteSpace a); auto.
    + right. right. exists "". auto.
  - right. right. eexists. split; [reflexivity|]. now left.
Qed.

Lemma tag_free_trimEnd (s : string) :
  matches_somewhere re_tag s = false ->
  matches_somewhere re_tag (trimEnd s) = false.
Proof.
  induction s as [|c s IH]; [trivial|]. intros H.
  apply tag_free_cons in H. destruct H as [Hc Hs]. specialize (IH Hs).
  destruct s as [|x rest].
  - cbn [trimEnd]. destruct (isWhiteSpace c); [reflexivity|].
    apply tag_free_cons. split; [apply re_tag_short | reflexivity].
  - destruct (trimEnd_cons_tail c x rest)
      as (t & Et & [->|[->|(r & -> & Hr)]]).
    + now rewrite Et.
    + rewrite Et. apply tag_free_cons.
      split; [apply re_tag_short | reflexivity].
    + rewrite Et. apply tag_free_cons. split.
      * apply re_tag_none. apply re_tag_none in Hc.
        destruct Hc as [Hc|Hc]; [now left | right].
        destruct Hr as [->| ->]; [now apply occurs_trimEnd | reflexivity].
      * assert (E : trimEnd (String x rest) = String x r).
        { cbn [trimEnd] in Et |- *.
          destruct (trimEnd rest) as [|b q].
          - destruct (isWhiteSpace x).
            + destruct (isWhiteSpace c); discriminate.
            + congruence.
          - congruence. }
        now rewrite <- E.
Qed.

(** X10.  A text that has no tag, no two spaces in a row and no white
    space at its ends is its own sanitized form, and every sanitized
    description is such a text: sanitizing a second time changes
    nothing. *)
Theorem removeTags_idempotent :
  (forall text,
      matches_somewhere re_tag text = false ->
      double_space text = false ->
      (forall c,
          first_char text = Some c \/ last_char text = Some c ->
          isWhiteSpace c = false) ->
      removeTags (str text) = text)
  /\ (forall html, matches_somewhere re_tag (removeTags html) = false)
  /\ (forall html, removeTags (str (removeTags html)) = removeTags html).
Proof.
  assert (F : forall text,
             matches_somewhere re_tag text = false ->
             double_space text = false ->
             (forall c,
                 first_char text = Some c \/ last_char text = Some c ->
                 isWhiteSpace c = false) ->
             removeTags (str text) = text).
  { intros text Ht Hd He. cbn [removeTags].
    rewrite (replace_g_nowhere re_tag " " text Ht).
    rewrite (replace_g_nowhere re_spaces " " text (no_run_nowhere text Hd)).
    now apply trim_kept. }
  assert (T : forall html, matches_somewhere re_tag (removeTags html) = false).
  { intros [| |html]; cbn [removeTags]; try reflexivity.
    unfold trim.
    apply tag_free_trimEnd, tag_free_trimStart, tag_free_collapse,
      no_tag_left. }
  split; [exact F|]. split; [exact T|].
  intros html. apply F.
  - apply T.
  - destruct html as [| |html]; cbn [removeTags]; try reflexivity.
    unfold trim.
    apply trimEnd_double_space, trimStart_double_space, no_run_left.
  - destruct html as [| |html]; cbn [removeTags];
      try (intros c [H|H]; discriminate).
    intros c. apply trim_ends.
Qed.

Lemma removeTags_idempotent_witness :
  removeTags (str "Hello&nbsp; world") = "Hello&nbsp; world".
Proof.
  apply removeTags_idempotent.
  - reflexivity.
  - reflexivity.
  - intros c [H|H]; injection H as <-; reflexivity.
Defined.

(** ** The page *)

Section Cycles.

Context {host : DateHost}.
Variable fetchXmlDoc : nat -> string -> completion XMLDocument.

Lemma selection_dated (doc : XMLDocument) (b e c : option string) :
  Forall dated (selection doc b e c).
Proof.
  unfold selection, slice0. apply Forall_firstn_of.
  eapply Permutation_Forall; [symmetry; apply sort_perm|].
  apply survivors_dated.
Qed.

(** The cycle of an element whose request is answered. *)
Lemma for_elements_cycle (index : nat) (element : HTMLElement)
    (rest : list HTMLElement) (doc : XMLDocument) :
  fetchXmlDoc index (request_url element) = Normal doc ->
  for_elements fetchXmlDoc index (element :: rest) =
  (innerHTML_set index (rendering element doc) ::
   effects (for_elements fetchXmlDoc (S index) rest),
   result (for_elements fetchXmlDoc (S index) rest)).
Proof.
  intros Hdoc. cbn [for_elements]. fold (request_url element).
  rewrite Hdoc, bind_run, getEvents_selection, bind_run.
  rewrite (getHtml_listing _ _ (selection_dated _ _ _ _)).
  unfold ret. rewrite bind_run. unfold emit. rewrite bind_run.
  unfold effects, result. cbn [fst snd app]. reflexivity.
Qed.

Lemma for_elements_answers (index : nat) (elements : list HTMLElement)
    (docs : list XMLDocument) :
  List.length docs = List.length elements ->
  (forall i element doc,
      nth_error elements i = Some element ->
      nth_error docs i = Some doc ->
      fetchXmlDoc (index + i)%nat (request_url element) = Normal doc) ->
  for_elements fetchXmlDoc index elements
  = (page_effects index elements docs, Normal tt).
Proof.
  revert index docs.
  induction elements as [|element elements IH]; intros index docs Hl Hok.
  - destruct docs; [reflexivity | discriminate].
  - destruct docs as [|doc docs]; [discriminate|].
    assert (Hdoc : fetchXmlDoc index (request_url element) = Normal doc).
    { specialize (Hok O element doc eq_refl eq_refl).
      now rewrite Nat.add_0_r in Hok. }
    rewrite (for_elements_cycle index element elements doc Hdoc).
    rewrite (IH (S index) docs).
    + reflexivity.
    + simpl in Hl. lia.
    + intros i el d Hi Hd. specialize (Hok (S i) el d Hi Hd).
      now rewrite <- Nat.add_succ_comm in Hok.
Qed.

Lemma page_effects_updated (index : nat) (elements : list HTMLElement)
    (docs : list XMLDocument) :
  List.length docs = List.length elements ->
  updated (page_effects index elements docs)
  = seq index (List.length elements).
Proof.
  revert index docs.
  induction elements as [|element elements IH]; intros index docs Hl.
  - destruct docs; reflexivity.
  - destruct docs as [|doc docs]; [discriminate|].
    cbn [page_effects updated List.length seq]. rewrite IH; [reflexivity|].
    simpl in Hl. lia.
Qed.

Lemma for_elements_throws (index : nat) (elements : list HTMLElement)
    (reason : string) :
  result (for_elements fetchXmlDoc index elements) = Throw reason ->
  exists i element,
    nth_error elements i = Some element
    /\ fetchXmlDoc (index + i)%nat (request_url element) = Throw reason
    /\ updated (effects (for_elements fetchXmlDoc index elements))
       = seq index i.
Proof.
  revert index. induction elements as [|element elements IH]; intros index H.
  - discriminate.
  - destruct (fetchXmlDoc index (request_url element)) as [doc|r] eqn:Hdoc.
    + rewrite (for_elements_cycle index element elements doc Hdoc) in H |- *.
      unfold result in H. cbn [snd] in H.
      destruct (IH (S index) H) as (i & el & Hi & Hf & Hu).
      exists (S i), el. split; [exact Hi|]. split.
      * now rewrite <- Nat.add_succ_comm.
      * unfold effects. cbn [fst updated seq].
        unfold effects in Hu. now rewrite Hu.
    + rewrite (for_elements_rejected _ index element elements r Hdoc)
        in H |- *.
      unfold result in H. cbn [snd] in H. injection H as ->.
      exists O, element. rewrite Nat.add_0_r. repeat split; assumption.
Qed.

End Cycles.

(** X11.  When every request of the page is answered, [main] completes
    normally and the top-level handler adds nothing.  The trace is, for the
    elements in page order, one assignment of the element's content: the
    text for the events selected from its own feed with its own attributes.
    Every element is set exactly once, in order. *)
Theorem main_renders_every_element {host : DateHost}
    (fetchXmlDoc : nat -> string -> completion XMLDocument)
    (elements : list HTMLElement) (docs : list XMLDocument) :
  List.length docs = List.length elements ->
  (forall i element doc,
      nth_error elements i = Some element ->
      nth_error docs i = Some doc ->
      fetchXmlDoc i (request_url element) = Normal doc) ->
  main fetchXmlDoc elements = (page_effects O elements docs, Normal tt)
  /\ start_module fetchXmlDoc elements = main fetchXmlDoc elements
  /\ updated (effects (main fetchXmlDoc elements))
     = seq 0 (List.length elements).
Proof.
  intros Hl Hok.
  assert (E : main fetchXmlDoc elements
              = (page_effects O elements docs, Normal tt)).
  { unfold main. now apply for_elements_answers. }
  split; [exact E|]. split.
  - unfold start_module. rewrite E. reflexivity.
  - rewrite E. unfold effects. cbn [fst]. now apply page_effects_updated.
Qed.

Lemma main_renders_every_element_witness :
  main (host := reference_host) (answers [january_feed; undated_feed])
    [counted_element (Some "1") None; plain_element]
  = (page_effects (host := reference_host) O
       [counted_element (Some "1") None; plain_element]
       [january_feed; undated_feed],
     Normal tt).
Proof.
  apply (main_renders_every_element (host := reference_host)
           (answers [january_feed; undated_feed])
           [counted_element (Some "1") None; plain_element]
           [january_feed; undated_feed]).
  - reflexivity.
  - intros i element doc He Hd. destruct i as [|[|i]]; simpl in He, Hd.
    + injection He as <-. injection Hd as <-. reflexivity.
    + injection He as <-. injection Hd as <-. reflexivity.
    + destruct i; discriminate.
Defined.

(** X12.  The module's run is rejected only after a request has failed:
    when it is, there is an element whose request failed, [main] was
    rejected with the reason of that failure, and the elements set are
    exactly those before it.  On a page with the global of the error sink
    the run is rejected with that very reason; on a page without it, with
    the error that the handler's report throws.  Selection and formatting
    never make the run fail. *)
Theorem rejection_comes_from_fetch {host : DateHost}
    (fetchXmlDoc : nat -> string -> completion XMLDocument)
    (elements : list HTMLElement) (reason : string) :
  result (start_module fetchXmlDoc elements) = Throw reason ->
  exists i element failure,
    nth_error elements i = Some element
    /\ fetchXmlDoc i (request_url element) = Throw failure
    /\ result (main fetchXmlDoc elements) = Throw failure
    /\ reason = (if Bugsnag_declared then failure else Bugsnag_is_not_defined)
    /\ updated (effects (start_module fetchXmlDoc elements)) = seq 0 i.
Proof.
  unfold start_module, main, catch.
  destruct (for_elements fetchXmlDoc 0 elements) as [w r] eqn:E.
  destruct r as [[]|failure].
  - discriminate.
  - intros H.
    destruct (for_elements_throws fetchXmlDoc O elements failure)
      as (i & el & Hi & Hf & Hu).
    + now rewrite E.
    + exists i, el, failure. split; [exact Hi|]. split; [exact Hf|].
      split; [reflexivity|].
      rewrite E in Hu. unfold effects in Hu. cbn [fst] in Hu.
      revert H. unfold LogError, result, effects.
      destruct Bugsnag_declared;
        unfold emit, throw, bind; cbn [fst snd app];
        intros [= <-]; (split; [reflexivity|]);
        rewrite updated_app, Hu; cbn [updated]; apply app_nil_r.
Qed.

Lemma rejection_comes_from_fetch_witness :
  exists i element failure,
    nth_error [plain_element; plain_element; plain_element] i = Some element
    /\ fails_at 1 i (request_url element) = Throw failure
    /\ result (main (host := without_Bugsnag reference_host) (fails_at 1)
                 [plain_element; plain_element; plain_element])
       = Throw failure
    /\ "ReferenceError: Bugsnag is not defined"
       = (if Bugsnag_declared (DateHost := without_Bugsnag reference_host)
          then failure else Bugsnag_is_not_defined)
    /\ updated (effects (start_module
                           (host := without_Bugsnag reference_host)
                           (fails_at 1)
                           [plain_element; plain_element; plain_element]))
       = seq 0 i.
Proof.
  apply (rejection_comes_from_fetch (host := without_Bugsnag reference_host)
           (fails_at 1) [plain_element; plain_element; plain_element]
           "ReferenceError: Bugsnag is not defined").
  vm_compute. reflexivity.
Defined.

(** ** A range only removes events *)

Lemma filter_filter_implied {A : Type} (p q : A -> bool) (l : list A) :
  (forall x, p x = true -> q x = true) ->
  filter p (filter q l) = filter p l.
Proof.
  intros H. induction l as [|x l IH]; [reflexivity|]. cbn [filter].
  destruct (q x) eqn:Q.
  - cbn [filter]. now rewrite IH.
  - rewrite IH. destruct (p x) eqn:P; [|reflexivity].
    rewrite (H x P) in Q. discriminate.
Qed.

Section Narrowing.

Context {host : DateHost} {laws : DateHostLaws host}.

Lemma survives_unbounded (b e : option string) (ev : CalendarEvent) :
  survives b e ev = true -> survives None None ev = true.
Proof.
  unfold survives.
  destruct (CalendarEvent.start ev) as [s|];
    [destruct (CalendarEvent.end_ ev) as [n|]|].
  2: { rewrite (eventWithinDateRange_null (Some s) None b e) by now right.
       destruct Bugsnag_declared; discriminate. }
  2: { rewrite (eventWithinDateRange_null None _ b e) by now left.
       destruct Bugsnag_declared; discriminate. }
  rewrite !eventWithinDateRange_instants. unfold result, ret. cbn [snd].
  destruct (start_instant s) as [|x] eqn:Hs; [discriminate|].
  destruct (end_instant n) as [|y] eqn:Hn;
    [now rewrite le_NaN_r, andb_false_r|].
  intros _.
  pose proof (Date_parse_range _ _ Hs). pose proof (Date_parse_range _ _ Hn).
  unfold MAX_SAFE_INTEGER, MIN_SAFE_INTEGER, MAX_TIME in *. cbn [JS.le].
  destruct (Z.leb_spec x (2 ^ 53 - 1)); [|lia].
  destruct (Z.leb_spec (- (2 ^ 53 - 1)) y); [reflexivity | lia].
Qed.

(** X13.  A range only removes events: the survivors of a feed under a
    range are the survivors under no range at all that pass the test of
    the range, in the same order, so each event that a range lets through
    is let through without it. *)
Theorem range_only_removes (doc : XMLDocument) (b e : option string) :
  survivors doc b e = filter (survives b e) (survivors doc None None)
  /\ (forall ev, In ev (survivors doc b e) -> In ev (survivors doc None None)).
Proof.
  assert (E : survivors doc b e
              = filter (survives b e) (survivors doc None None)).
  { unfold survivors. symmetry. apply filter_filter_implied.
    intros ev. apply survives_unbounded. }
  split; [exact E|].
  intros ev H. rewrite E in H. apply filter_In in H. tauto.
Qed.

End Narrowing.

Lemma range_only_removes_witness :
  survivors (host := reference_host) january_feed
    (Some "2025-01-08") (Some "2025-01-12")
  = filter (survives (host := reference_host)
              (Some "2025-01-08") (Some "2025-01-12"))
      (survivors (host := reference_host) january_feed None None).
Proof.
  apply (range_only_removes (host := reference_host)
           (laws := reference_host_laws (-300))).
Defined.

(** ** A greater count only adds events *)

Lemma firstn_firstn_le {A : Type} (n m : nat) (l : list A) :
  (n <= m)%nat -> firstn n (firstn m l) = firstn n l.
Proof. intros H. rewrite firstn_firstn. f_equal. lia. Qed.

(** X14.  Of two counts that are not negative the smaller selects a
    prefix of what the greater selects, for the same feed and range: the
    events and their order are the same as far as the smaller count goes. *)
Theorem greater_count_extends {host : DateHost}
    (doc : XMLDocument) (b e c1 c2 : option string) :
  0 <= count_of c1 <= count_of c2 ->
  exists events,
    result (getEvents doc b e c2) = Normal events
    /\ result (getEvents doc b e c1)
       = Normal (firstn (Z.to_nat (count_of c1)) events).
Proof.
  intros [H1 H2].
  assert (S : forall c, 0 <= count_of c ->
              selection doc b e c
              = firstn (Z.to_nat (count_of c))
                  (sort compareEvents (survivors doc b e))).
  { intros c Hc. unfold selection.
    rewrite <- (slice0_firstn _ _ Hc). now rewrite sort_length. }
  exists (selection doc b e c2).
  rewrite !getEvents_selection. unfold result. cbn [snd].
  split; [reflexivity|]. f_equal.
  rewrite (S c1 H1), (S c2) by lia.
  symmetry. apply firstn_firstn_le. lia.
Qed.

Lemma greater_count_extends_witness :
  exists events,
    result (getEvents (host := reference_host) january_feed None None None)
    = Normal events
    /\ result (getEvents (host := reference_host) january_feed None None
                 (Some "1"))
       = Normal (firstn (Z.to_nat (count_of (Some "1"))) events).
Proof.
  apply (greater_count_extends (host := reference_host)).
  vm_compute. split; discriminate.
Defined.
